(** * contact.js: the contact-form submit handler and the progress-bar animator

    A shallow embedding of [Static/JavaScript/contact.js].  The file holds two
    independent scripts:

    - a [submit] listener on the form [#contact-form] that checks three
      trimmed field values and writes a status text, and
    - a [DOMContentLoaded] listener that resets every [.progress] element to
      width ['0%'] and restores the captured width from a 300 ms timer.

    Both scripts only talk to the document, the event object and the timer
    queue, so the embedding is a state-and-exception monad over a small model
    of those three. *)

From Stdlib Require Import String Ascii NArith List Bool Lia.
From stdpp Require Import base tactics option list numbers strings.

Local Open Scope string_scope.
Local Open Scope N_scope.

(** ** JavaScript strings *)

Module Js.

(** A JavaScript string is a sequence of UTF-16 code units. *)
Definition jsstring := list N.

(** A source literal; every literal of [contact.js] is ASCII. *)
Definition lit (s : string) : jsstring :=
  map N_of_ascii (list_ascii_of_string s).

(** ECMAScript [WhiteSpace] and [LineTerminator] code points: the characters
    [String.prototype.trim] strips.  TAB, LF, VT, FF, CR, SP, NBSP, the
    category-Zs spaces, LS, PS and the byte order mark. *)
Definition is_white_space (c : N) : bool :=
  (c =? 9) || (c =? 10) || (c =? 11) || (c =? 12) || (c =? 13) ||
  (c =? 32) || (c =? 160) || (c =? 5760) ||
  ((8192 <=? c) && (c <=? 8202)) ||
  (c =? 8232) || (c =? 8233) || (c =? 8239) || (c =? 8287) ||
  (c =? 12288) || (c =? 65279).

Fixpoint trimStart (s : jsstring) : jsstring :=
  match s with
  | [] => []
  | c :: r => if is_white_space c then trimStart r else s
  end.

Definition trimEnd (s : jsstring) : jsstring := rev (trimStart (rev s)).

(** [s.trim()] *)
Definition trim (s : jsstring) : jsstring := trimEnd (trimStart s).

(** ToBoolean on a string: only the empty string is falsy. *)
Definition truthy (s : jsstring) : bool :=
  match s with [] => false | _ :: _ => true end.

(** A string made of white space only. *)
Definition all_white_space (s : jsstring) : bool := forallb is_white_space s.

End Js.

(** ** The document, the event and the timer queue *)

Module Dom.
Import Js.

(** The properties of an element that [contact.js] reads or writes, together
    with what the platform needs to run [form.reset()] and the class selector.
    [form] is the element's form owner (a node of the document), [className]
    its class tokens, [style_width] the inline [style.width] (the empty string
    when the property is not set).

    Scope: the document is a flat list, so the tree is not modelled and
    [textContent] is a node's own text; [value] and [defaultValue] are those
    of a text control; every element has a style, of which only the value
    that [style.width] reads back is kept. *)
Record Element := mkElement {
  elem_id : string;
  className : list string;
  value : jsstring;
  defaultValue : jsstring;
  textContent : jsstring;
  form : option nat;
  style_width : jsstring
}.

Definition with_value (v : jsstring) (el : Element) : Element :=
  mkElement (elem_id el) (className el) v (defaultValue el)
            (textContent el) (form el) (style_width el).

Definition with_textContent (t : jsstring) (el : Element) : Element :=
  mkElement (elem_id el) (className el) (value el) (defaultValue el)
            t (form el) (style_width el).

Definition with_style_width (x : jsstring) (el : Element) : Element :=
  mkElement (elem_id el) (className el) (value el) (defaultValue el)
            (textContent el) (form el) x.

(** The closure [() => { bar.style.width = width; }] handed to [setTimeout],
    with the time at which it becomes due. *)
Record Timer := mkTimer {
  due : N;
  bar : nat;
  width : jsstring
}.

(** Writes performed on the host, in program order. *)
Inductive Effect :=
| EPreventDefault
| ESetTextContent (node : nat) (t : jsstring)
| EReset (frm : nat)
| ESetStyleWidth (node : nat) (x : jsstring)
| ESetTimeout (delay : N) (node : nat) (x : jsstring).

(** The host state.  [document] lists the elements in tree order, a node is
    its position in that list; [defaultPrevented] is the canceled flag of the
    event being dispatched; [timers] is the queue of pending timers in firing
    order; [trace] logs every write. *)
Record World := mkWorld {
  document : list Element;
  defaultPrevented : bool;
  now : N;
  timers : list Timer;
  trace : list Effect
}.

Inductive JsError := TypeError.

Inductive Completion (A : Type) :=
| Normal (a : A)
| Throw (e : JsError).
Arguments Normal {A} a.
Arguments Throw {A} e.

(** Statements run in a world and complete normally or abruptly; the writes
    made before a throw stay. *)
Definition JS (A : Type) : Type := World -> Completion A * World.

Definition ret {A} (a : A) : JS A := fun w => (Normal a, w).

Definition bind {A B} (m : JS A) (k : A -> JS B) : JS B :=
  fun w =>
    match m w with
    | (Normal a, w') => k a w'
    | (Throw e, w') => (Throw e, w')
    end.

Declare Scope js_scope.
Delimit Scope js_scope with js.
Notation "x <- m ;; k" := (bind m (fun x => k))
  (at level 100, m at next level, k at level 200, right associativity)
  : js_scope.
Notation "m ;; k" := (bind m (fun _ => k))
  (at level 100, k at level 200, right associativity) : js_scope.

Definition log (e : Effect) (w : World) : World :=
  mkWorld (document w) (defaultPrevented w) (now w) (timers w) (trace w ++ [e]).

Definition set_document (d : list Element) (w : World) : World :=
  mkWorld d (defaultPrevented w) (now w) (timers w) (trace w).

(** [document.getElementById(i)]: the first element in tree order with that
    id, or [null]. *)
Definition find_id (i : string) (d : list Element) : option nat :=
  fst <$> list_find (fun el => elem_id el = i) d.

Definition getElementById (i : string) : JS (option nat) :=
  fun w => (Normal (find_id i (document w)), w).

(** Reading a property of [r]; a read on [null] throws a TypeError. *)
Definition get {A} (prop : Element -> A) (r : option nat) : JS A :=
  fun w =>
    match r with
    | None => (Throw TypeError, w)
    | Some n =>
        match document w !! n with
        | Some el => (Normal (prop el), w)
        | None => (Throw TypeError, w)
        end
    end.

(** Writing a property of [r]; a write on [null] throws a TypeError. *)
Definition put (upd : Element -> Element) (e : nat -> Effect) (r : option nat)
  : JS unit :=
  fun w =>
    match r with
    | None => (Throw TypeError, w)
    | Some n =>
        match document w !! n with
        | Some _ => (Normal tt, log (e n) (set_document (alter upd n (document w)) w))
        | None => (Throw TypeError, w)
        end
    end.

Definition set_textContent (r : option nat) (t : jsstring) : JS unit :=
  put (with_textContent t) (fun n => ESetTextContent n t) r.

Definition set_style_width (r : option nat) (x : jsstring) : JS unit :=
  put (with_style_width x) (fun n => ESetStyleWidth n x) r.

(** [e.preventDefault()] on the (cancelable) submit event. *)
Definition preventDefault : JS unit :=
  fun w => (Normal tt,
            log EPreventDefault
                (mkWorld (document w) true (now w) (timers w) (trace w))).

(** The reset algorithm of a form, for text controls: every control owned by
    the form gets its default value back. *)
Definition reset_control (frm : nat) (el : Element) : Element :=
  if decide (form el = Some frm) then with_value (defaultValue el) el else el.

Definition reset (frm : nat) : JS unit :=
  fun w => (Normal tt,
            log (EReset frm) (set_document (reset_control frm <$> document w) w)).

End Dom.

(** ** The submit handler *)

Module ContactForm.
Import Js Dom.
Local Open Scope js_scope.

(** The listener registered on [#contact-form]; [this] is that form. *)
Definition submit_handler (this : nat) : JS unit :=
  preventDefault ;;
  n <- getElementById "name" ;; nv <- get value n ;;
  let name := trim nv in
  e <- getElementById "email" ;; ev <- get value e ;;
  let email := trim ev in
  m <- getElementById "message" ;; mv <- get value m ;;
  let message := trim mv in
  if negb (truthy name) || negb (truthy email) || negb (truthy message) then
    s <- getElementById "form-message" ;;
    set_textContent s (lit "Please fill in all fields.")
  else
    s <- getElementById "form-message" ;;
    set_textContent s (lit "Thank you for reaching out!") ;;
    reset this.

End ContactForm.

(** ** The progress-bar animator *)

Module ProgressAnimator.
Import Js Dom.
Local Open Scope js_scope.

(** [document.querySelectorAll('.' + c)]: the nodes carrying class [c], in
    tree order (a static list, each node once). *)
Fixpoint select_from (n : nat) (c : string) (d : list Element) : list nat :=
  match d with
  | [] => []
  | el :: d' =>
      if bool_decide (c ∈ className el)
      then n :: select_from (S n) c d'
      else select_from (S n) c d'
  end.

Definition querySelectorAll (c : string) : JS (list nat) :=
  fun w => (Normal (select_from 0 c (document w)), w).

(** [list.forEach(f)] *)
Fixpoint forEach {A} (l : list A) (f : A -> JS unit) : JS unit :=
  match l with
  | [] => ret tt
  | x :: r => f x ;; forEach r f
  end.

(** The timer queue is kept in firing order: by due time, and among timers
    due at the same time by the order of the [setTimeout] calls. *)
Fixpoint enqueue (tm : Timer) (q : list Timer) : list Timer :=
  match q with
  | [] => [tm]
  | x :: q' => if due x <=? due tm then x :: enqueue tm q' else tm :: q
  end.

(** [setTimeout(() => { node.style.width = x; }, delay)] *)
Definition setTimeout (node : nat) (x : jsstring) (delay : N) : JS unit :=
  fun w => (Normal tt,
            log (ESetTimeout delay node x)
                (mkWorld (document w) (defaultPrevented w) (now w)
                         (enqueue (mkTimer (now w + delay) node x) (timers w))
                         (trace w))).

(** The body of [bars.forEach(bar => ...)]. *)
Definition animate (bar : nat) : JS unit :=
  width <- get style_width (Some bar) ;;
  set_style_width (Some bar) (lit "0%") ;;
  setTimeout bar width 300.

(** The [DOMContentLoaded] listener. *)
Definition on_ready : JS unit :=
  bars <- querySelectorAll "progress" ;;
  forEach bars animate.

(** Running a timer's callback. *)
Definition fire (tm : Timer) : JS unit :=
  set_style_width (Some (bar tm)) (width tm).

Definition is_due (t : N) (tm : Timer) : bool := due tm <=? t.

(** The event loop up to time [t]: every timer due by then fires, in queue
    order, and leaves the queue.  An exception in a callback is reported and
    the loop goes on. *)
Definition run_until (t : N) (w : World) : World :=
  fold_left (fun w' tm => snd (fire tm w'))
            (List.filter (is_due t) (timers w))
            (mkWorld (document w) (defaultPrevented w) (N.max (now w) t)
                     (List.filter (fun tm => negb (is_due t tm)) (timers w))
                     (trace w)).

End ProgressAnimator.

(** ** Observations *)

Module Observe.
Import Js Dom.

(** The element [document.getElementById(i)] denotes, if any. *)
Definition by_id (w : World) (i : string) : option Element :=
  n ← find_id i (document w); document w !! n.

Definition field_value (w : World) (i : string) : option jsstring :=
  value <$> by_id w i.

Definition field_default (w : World) (i : string) : option jsstring :=
  defaultValue <$> by_id w i.

Definition field_owner (w : World) (i : string) : option (option nat) :=
  form <$> by_id w i.

Definition status_text (w : World) : option jsstring :=
  textContent <$> by_id w "form-message".

Definition width_of (w : World) (n : nat) : option jsstring :=
  style_width <$> document w !! n.

(** The writes made between [w] and a later world [w']. *)
Definition new_effects (w w' : World) : list Effect :=
  drop (length (trace w)) (trace w').


Definition is_reset (e : Effect) : bool :=
  match e with EReset _ => true | _ => false end.

Definition is_width_write (e : Effect) : bool :=
  match e with ESetStyleWidth _ _ => true | _ => false end.

Definition is_schedule (e : Effect) : bool :=
  match e with ESetTimeout _ _ _ => true | _ => false end.

(** The browser's default action for the dispatched event runs only when
    the event was not canceled. *)
Definition default_action_runs (w : World) : bool := negb (defaultPrevented w).

(** A statement that leaves a canceled event canceled. *)
Definition keeps_canceled {A} (m : JS A) : Prop :=
  forall w, defaultPrevented w = true -> defaultPrevented (snd (m w)) = true.

(** The success condition of the handler on the three entered values. *)
Definition all_filled (vn ve vm : jsstring) : bool :=
  truthy (trim vn) && truthy (trim ve) && truthy (trim vm).

(** The texts written to [textContent] between [w] and [w']. *)
Definition status_writes (w w' : World) : list jsstring :=
  omap (fun e => match e with ESetTextContent _ t => Some t | _ => None end)
       (new_effects w w').

Definition did_reset (w w' : World) : bool :=
  existsb is_reset (new_effects w w').

(** The inline width of node [b] ([""] for a node that is not there). *)
Definition captured (w : World) (b : nat) : jsstring :=
  default [] (width_of w b).

(** The timers and the writes the animator leaves for the bars [bs], given
    the width [cap b] it captures for each bar [b]. *)
Definition restore_timers (t : N) (cap : nat -> jsstring) (bs : list nat)
  : list Timer :=
  map (fun b => mkTimer (t + 300) b (cap b)) bs.

Definition pass_effects (cap : nat -> jsstring) (bs : list nat) : list Effect :=
  flat_map (fun b => [ESetStyleWidth b (lit "0%");
                      ESetTimeout 300 b (cap b)]) bs.

(** A timer queue in firing order: no timer is due before one ahead of it. *)
Fixpoint ordered (q : list Timer) : bool :=
  match q with
  | [] => true
  | x :: q' => forallb (fun y => due x <=? due y) q' && ordered q'
  end.

End Observe.

(** ** Sample pages *)

Module Samples.
Import Js Dom.

Definition plain (i : string) : Element :=
  mkElement i [] [] [] [] None [].

Definition input (i : string) (v dflt : jsstring) (frm : nat) : Element :=
  mkElement i [] v dflt [] (Some frm) [].

Definition progress_bar (x : jsstring) : Element :=
  mkElement "" ["progress"] [] [] [] None x.

Definition page (els : list Element) : World := mkWorld els false 0 [] [].

(** A contact page: the form is node 0. *)
Definition contact_page (n e m : jsstring) : World :=
  page [ plain "contact-form"; input "name" n [] 0; input "email" e [] 0;
         input "message" m [] 0; plain "form-message" ].

(** The same page with a pre-filled name field. *)
Definition prefilled_page (n e m : jsstring) : World :=
  page [ plain "contact-form"; input "name" n (lit "Your name") 0;
         input "email" e [] 0; input "message" m [] 0; plain "form-message" ].

(** The scenarios of the specification. *)
Definition ada_page : World :=
  contact_page (lit "Ada") (lit "ada@example.com") (lit "Hello").

Definition ada_prefilled : World :=
  prefilled_page (lit "Ada") (lit "ada@example.com") (lit "Hello").

Definition no_name_page : World :=
  contact_page [] (lit "x@y.com") (lit "Hi").

Definition blank_name_page : World :=
  contact_page (lit "   ") (lit "x@y.com") (lit "Hi").

Definition skills_page : World :=
  page [ plain "skills"; progress_bar (lit "75%"); plain "label";
         progress_bar (lit "120px"); progress_bar [] ].

End Samples.

Import Js Dom ContactForm ProgressAnimator Observe Samples.

(** ** Facts about strings *)

Section StringFacts.

Lemma trimStart_white s : all_white_space s = true -> trimStart s = [].
Proof.
  induction s as [|c r IH]; cbn; [done|].
  intros [Hc Hr]%andb_prop. rewrite Hc. auto.
Qed.

Lemma trim_white s : all_white_space s = true -> trim s = [].
Proof.
  intros H. unfold trim, trimEnd. by rewrite (trimStart_white s H).
Qed.

Lemma truthy_nonempty s : truthy s = true <-> s <> [].
Proof. destruct s; cbn; split; congruence. Qed.

Lemma truthy_empty s : truthy s = false <-> s = [].
Proof. destruct s; cbn; split; congruence. Qed.

End StringFacts.

(** ** Facts about the document *)

Section DomFacts.

Lemma find_id_Some i d n :
  find_id i d = Some n -> exists el, d !! n = Some el /\ elem_id el = i.
Proof.
  unfold find_id. destruct (list_find _ d) as [[k el]|] eqn:H; [|done].
  cbn. intros [= <-]. apply list_find_Some in H as (H1 & H2 & _). eauto.
Qed.

Lemma find_id_same_ids i (d d' : list Element) :
  Forall2 (fun a b => elem_id a = elem_id b) d d' -> find_id i d' = find_id i d.
Proof.
  unfold find_id. induction 1 as [|a b d d' Hab _ IH]; [done|].
  cbn. rewrite Hab.
  destruct (decide (elem_id b = i)); [done|].
  destruct (list_find _ d) as [[? ?]|], (list_find _ d') as [[? ?]|];
    cbn in *; congruence.
Qed.

Lemma find_id_alter i f n (d : list Element) :
  (forall el, elem_id (f el) = elem_id el) ->
  find_id i (alter f n d) = find_id i d.
Proof.
  intros Hf. apply find_id_same_ids.
  revert n. induction d as [|a d IH]; intros [|n]; cbn; constructor; auto.
  clear. induction d; constructor; auto.
Qed.

Lemma find_id_fmap i f (d : list Element) :
  (forall el, elem_id (f el) = elem_id el) ->
  find_id i (f <$> d) = find_id i d.
Proof.
  intros Hf. apply find_id_same_ids.
  induction d; cbn; constructor; auto.
Qed.

Lemma find_id_distinct i j d n m :
  i <> j -> find_id i d = Some n -> find_id j d = Some m -> n <> m.
Proof.
  intros Hij (a & Ha & Hai)%find_id_Some (b & Hb & Hbj)%find_id_Some ->.
  congruence.
Qed.

Lemma by_id_Some w i el :
  by_id w i = Some el ->
  exists n, find_id i (document w) = Some n /\ document w !! n = Some el.
Proof.
  unfold by_id. destruct (find_id i (document w)) as [n|]; [|done]. cbn. eauto.
Qed.

Lemma elem_id_reset frm el : elem_id (reset_control frm el) = elem_id el.
Proof. unfold reset_control. by case_decide. Qed.

End DomFacts.

(** ** Running the submit handler *)

Section HandlerRuns.

Lemma field_value_Some w i v :
  field_value w i = Some v ->
  exists n el, find_id i (document w) = Some n /\ document w !! n = Some el
               /\ value el = v.
Proof.
  unfold field_value. destruct (by_id w i) as [el|] eqn:E; [|done].
  cbn. intros [= <-]. apply by_id_Some in E as (n & ? & ?). eauto.
Qed.

Ltac run_handler :=
  unfold submit_handler, bind, preventDefault, getElementById, get,
    set_textContent, put, reset;
  cbn [document defaultPrevented now timers trace log set_document].

(** With the three fields and the status node in the document, the handler
    completes normally; the two branches differ by the text and the reset. *)
Lemma handler_run this w vn ve vm s :
  field_value w "name" = Some vn ->
  field_value w "email" = Some ve ->
  field_value w "message" = Some vm ->
  find_id "form-message" (document w) = Some s ->
  submit_handler this w =
    if negb (truthy (trim vn)) || negb (truthy (trim ve))
       || negb (truthy (trim vm))
    then
      (Normal tt,
       mkWorld (alter (with_textContent (lit "Please fill in all fields.")) s
                      (document w))
               true (now w) (timers w)
               (trace w ++ [EPreventDefault;
                            ESetTextContent s (lit "Please fill in all fields.")]))
    else
      (Normal tt,
       mkWorld (reset_control this <$>
                  alter (with_textContent (lit "Thank you for reaching out!")) s
                        (document w))
               true (now w) (timers w)
               (trace w ++ [EPreventDefault;
                            ESetTextContent s (lit "Thank you for reaching out!");
                            EReset this])).
Proof.
  intros (n & eln & Fn & Ln & <-)%field_value_Some
         (e & ele & Fe & Le & <-)%field_value_Some
         (m & elm & Fm & Lm & <-)%field_value_Some Hs.
  destruct (find_id_Some _ _ _ Hs) as (els & Ls & _).
  run_handler. rewrite Fn. run_handler. rewrite Ln. run_handler.
  rewrite Fe. run_handler. rewrite Le. run_handler.
  rewrite Fm. run_handler. rewrite Lm. run_handler.
  destruct (negb _ || negb _ || negb _);
    run_handler; rewrite Hs; run_handler; rewrite Ls; run_handler;
    unfold log, set_document; run_handler;
    rewrite <- ?app_assoc; reflexivity.
Qed.

Lemma keeps_bind {A B} (m : JS A) (k : A -> JS B) :
  keeps_canceled m -> (forall a, keeps_canceled (k a)) ->
  keeps_canceled (bind m k).
Proof.
  intros Hm Hk w Hw. unfold bind. specialize (Hm w Hw).
  destruct (m w) as [[a|e] w']; cbn in *; [by apply Hk|done].
Qed.

Lemma keeps_getElementById i : keeps_canceled (getElementById i).
Proof. by intros w Hw. Qed.

Lemma keeps_get {A} (prop : Element -> A) r : keeps_canceled (get prop r).
Proof.
  intros w Hw. unfold get. destruct r as [n|]; [|done].
  by destruct (document w !! n).
Qed.

Lemma keeps_put upd e r : keeps_canceled (put upd e r).
Proof.
  intros w Hw. unfold put. destruct r as [n|]; [|done].
  by destruct (document w !! n).
Qed.

Lemma keeps_reset frm : keeps_canceled (reset frm).
Proof. by intros w Hw. Qed.

(** A missing field or status node makes the handler throw, but only after
    the default action was canceled. *)
Lemma handler_canceled this w :
  defaultPrevented (snd (submit_handler this w)) = true.
Proof.
  unfold submit_handler. unfold bind at 1. cbn [preventDefault].
  match goal with |- defaultPrevented (snd (?k ?w1)) = true =>
    change (defaultPrevented (snd (k w1)) = true);
    cut (keeps_canceled k); [intros Hk; by apply Hk|]
  end.
  repeat first
    [ apply keeps_getElementById | apply keeps_get | apply keeps_reset
    | apply keeps_put
    | apply keeps_bind; [|intros ?]
    | match goal with |- keeps_canceled (if ?b then _ else _) => destruct b end ].
Qed.

Lemma guard_all_filled vn ve vm :
  negb (truthy (trim vn)) || negb (truthy (trim ve)) || negb (truthy (trim vm))
  = negb (all_filled vn ve vm).
Proof. unfold all_filled. by rewrite !negb_andb. Qed.

Lemma all_filled_true vn ve vm :
  all_filled vn ve vm = true
  <-> trim vn <> [] /\ trim ve <> [] /\ trim vm <> [].
Proof.
  unfold all_filled. rewrite !andb_true_iff, !truthy_nonempty. tauto.
Qed.

Lemma all_filled_false vn ve vm :
  all_filled vn ve vm = false
  <-> trim vn = [] \/ trim ve = [] \/ trim vm = [].
Proof.
  unfold all_filled. rewrite !andb_false_iff, !truthy_empty. tauto.
Qed.

(** The document after either branch, node by node. *)
Lemma lookup_after_status t s (d : list Element) k :
  alter (with_textContent t) s d !! k
  = (fun el => if decide (k = s) then with_textContent t el else el) <$> d !! k.
Proof.
  destruct (decide (k = s)) as [->|Hk].
  - by rewrite list_lookup_alter_eq.
  - rewrite list_lookup_alter_ne by done. by destruct (d !! k).
Qed.

Lemma lookup_after_reset this t s (d : list Element) k :
  (reset_control this <$> alter (with_textContent t) s d) !! k
  = (fun el => reset_control this
                 (if decide (k = s) then with_textContent t el else el))
      <$> d !! k.
Proof.
  rewrite list_lookup_fmap, lookup_after_status. by destruct (d !! k).
Qed.

Lemma new_effects_app w d c n q l :
  new_effects w (mkWorld d c n q (trace w ++ l)) = l.
Proof. unfold new_effects. cbn. by rewrite drop_app_length. Qed.

End HandlerRuns.

(** ** The submit handler: the two branches *)

Section SubmitBranches.

Lemma status_node w : is_Some (status_text w) ->
  exists s, find_id "form-message" (document w) = Some s.
Proof.
  unfold status_text, by_id. intros [t Ht].
  destruct (find_id _ (document w)) as [s|]; [eauto|done].
Qed.

Lemma by_id_after_status c n q tr t s d i :
  by_id (mkWorld (alter (with_textContent t) s d) c n q tr) i
  = k ← find_id i d;
    (fun el => if decide (k = s) then with_textContent t el else el) <$> d !! k.
Proof.
  unfold by_id. cbn [document]. rewrite find_id_alter by done.
  destruct (find_id i d) as [k|]; [|done]. cbn. apply lookup_after_status.
Qed.

Lemma by_id_after_reset c n q tr this t s d i :
  by_id (mkWorld (reset_control this <$> alter (with_textContent t) s d)
                 c n q tr) i
  = k ← find_id i d;
    (fun el => reset_control this
                 (if decide (k = s) then with_textContent t el else el))
      <$> d !! k.
Proof.
  unfold by_id. cbn [document].
  rewrite find_id_fmap by apply elem_id_reset.
  rewrite find_id_alter by done.
  destruct (find_id i d) as [k|]; [|done]. cbn. apply lookup_after_reset.
Qed.

(** After the failure branch a field still holds what it held. *)
Lemma field_kept c n q tr t s w i v :
  i <> "form-message" ->
  find_id "form-message" (document w) = Some s ->
  field_value w i = Some v ->
  field_value (mkWorld (alter (with_textContent t) s (document w)) c n q tr) i
  = Some v.
Proof.
  intros Hi Hs (k & el & Fk & Lk & <-)%field_value_Some.
  unfold field_value. rewrite by_id_after_status, Fk. cbn. rewrite Lk. cbn.
  pose proof (find_id_distinct _ _ _ _ _ Hi Fk Hs). by case_decide.
Qed.

(** After the success branch a field of the form holds its default value. *)
Lemma field_reset c n q tr this t s w i :
  i <> "form-message" ->
  find_id "form-message" (document w) = Some s ->
  field_owner w i = Some (Some this) ->
  field_value (mkWorld (reset_control this <$>
                          alter (with_textContent t) s (document w)) c n q tr) i
  = field_default w i.
Proof.
  intros Hi Hs Ho. unfold field_owner, field_default, field_value in *.
  destruct (by_id w i) as [el|] eqn:E; [|done].
  apply by_id_Some in E as (k & Fk & Lk). cbn in Ho. injection Ho as Ho.
  rewrite by_id_after_reset, Fk. cbn. rewrite Lk. cbn.
  pose proof (find_id_distinct _ _ _ _ _ Hi Fk Hs).
  case_decide; [done|]. unfold reset_control. by case_decide.
Qed.

Lemma status_after_status c n q tr t s d :
  find_id "form-message" d = Some s ->
  status_text (mkWorld (alter (with_textContent t) s d) c n q tr) = Some t.
Proof.
  intros Hs. destruct (find_id_Some _ _ _ Hs) as (el & Ls & _).
  unfold status_text. rewrite by_id_after_status, Hs. cbn. rewrite Ls. cbn.
  by case_decide.
Qed.

Lemma status_after_reset c n q tr this t s d :
  find_id "form-message" d = Some s ->
  status_text (mkWorld (reset_control this <$> alter (with_textContent t) s d)
                       c n q tr) = Some t.
Proof.
  intros Hs. destruct (find_id_Some _ _ _ Hs) as (el & Ls & _).
  unfold status_text. rewrite by_id_after_reset, Hs. cbn. rewrite Ls. cbn.
  case_decide; [|done]. unfold reset_control. by case_decide.
Qed.

(** C1 (as amended): when the trimmed name, email and message are all
    non-empty, the handler completes normally, the status node reads
    "Thank you for reaching out!", and each of the three fields of the form
    holds its default value again, which is the empty string for a field
    whose default is empty. *)
Theorem submit_success_resets this w vn ve vm :
  field_value w "name" = Some vn ->
  field_value w "email" = Some ve ->
  field_value w "message" = Some vm ->
  is_Some (status_text w) ->
  field_owner w "name" = Some (Some this) ->
  field_owner w "email" = Some (Some this) ->
  field_owner w "message" = Some (Some this) ->
  trim vn <> [] -> trim ve <> [] -> trim vm <> [] ->
  let w' := snd (submit_handler this w) in
  fst (submit_handler this w) = Normal tt /\
  status_text w' = Some (lit "Thank you for reaching out!") /\
  field_value w' "name" = field_default w "name" /\
  field_value w' "email" = field_default w "email" /\
  field_value w' "message" = field_default w "message" /\
  (forall i, In i ["name"; "email"; "message"] ->
     field_default w i = Some [] -> field_value w' i = Some []).
Proof.
  intros Hn He Hm [s Hs]%status_node On Oe Om Tn Te Tm w'.
  assert (Hrun := handler_run this w vn ve vm s Hn He Hm Hs).
  rewrite guard_all_filled in Hrun.
  rewrite (proj2 (all_filled_true vn ve vm)) in Hrun by done.
  cbn [negb] in Hrun. subst w'. rewrite Hrun. cbn [fst snd].
  assert (Fn := field_reset true (now w) (timers w)
    (trace w ++ [EPreventDefault;
                 ESetTextContent s (lit "Thank you for reaching out!");
                 EReset this]) this (lit "Thank you for reaching out!") s w).
  split; [done|]. split; [by apply status_after_reset|].
  split; [by apply Fn|]. split; [by apply Fn|]. split; [by apply Fn|].
  intros i Hi <-. cbn in Hi.
  destruct Hi as [<-|[<-|[<-|[]]]]; by apply Fn.
Qed.

Lemma submit_success_resets_witness :
  fst (submit_handler 0 ada_page) = Normal tt /\
  status_text (snd (submit_handler 0 ada_page))
    = Some (lit "Thank you for reaching out!") /\
  field_value (snd (submit_handler 0 ada_page)) "name" = Some [].
Proof.
  destruct (submit_success_resets 0 ada_page
              (lit "Ada") (lit "ada@example.com") (lit "Hello"))
    as (H1 & H2 & H3 & _);
    try reflexivity; try (vm_compute; discriminate); [by eexists|].
  split; [exact H1|]. split; [exact H2|]. rewrite H3. reflexivity.
Defined.

(** The fields are not always empty afterwards: on a page whose name field
    has the default value "Your name", a successful submission leaves the
    name field holding "Your name". *)
Lemma submit_success_not_empty :
  field_value ada_prefilled "name" = Some (lit "Ada") /\
  field_value ada_prefilled "email" = Some (lit "ada@example.com") /\
  field_value ada_prefilled "message" = Some (lit "Hello") /\
  trim (lit "Ada") <> [] /\ trim (lit "ada@example.com") <> [] /\
  trim (lit "Hello") <> [] /\
  fst (submit_handler 0 ada_prefilled) = Normal tt /\
  status_text (snd (submit_handler 0 ada_prefilled))
    = Some (lit "Thank you for reaching out!") /\
  field_value (snd (submit_handler 0 ada_prefilled)) "name"
    = Some (lit "Your name") /\
  field_value (snd (submit_handler 0 ada_prefilled)) "name" <> Some [].
Proof.
  repeat split; try reflexivity; vm_compute; discriminate.
Qed.

(** C2: when at least one trimmed value is empty, the handler completes
    normally, the status node reads "Please fill in all fields.", the three
    fields hold the values that were entered, no control of the document
    changes its value and no reset is performed. *)
Theorem submit_failure_keeps_fields this w vn ve vm :
  field_value w "name" = Some vn ->
  field_value w "email" = Some ve ->
  field_value w "message" = Some vm ->
  is_Some (status_text w) ->
  trim vn = [] \/ trim ve = [] \/ trim vm = [] ->
  let w' := snd (submit_handler this w) in
  fst (submit_handler this w) = Normal tt /\
  status_text w' = Some (lit "Please fill in all fields.") /\
  field_value w' "name" = Some vn /\
  field_value w' "email" = Some ve /\
  field_value w' "message" = Some vm /\
  (forall k, value <$> document w' !! k = value <$> document w !! k) /\
  did_reset w w' = false.
Proof.
  intros Hn He Hm [s Hs]%status_node Hbad w'.
  assert (Hrun := handler_run this w vn ve vm s Hn He Hm Hs).
  rewrite guard_all_filled in Hrun.
  rewrite (proj2 (all_filled_false vn ve vm)) in Hrun by done.
  cbn [negb] in Hrun. subst w'. rewrite Hrun. cbn [fst snd].
  split; [done|]. split; [by apply status_after_status|].
  split; [by apply field_kept|]. split; [by apply field_kept|].
  split; [by apply field_kept|]. split.
  - intros k. cbn [document]. rewrite lookup_after_status.
    destruct (document w !! k); [|done]. cbn. by case_decide.
  - unfold did_reset. by rewrite new_effects_app.
Qed.

Lemma submit_failure_keeps_fields_witness :
  status_text (snd (submit_handler 0 no_name_page))
    = Some (lit "Please fill in all fields.") /\
  field_value (snd (submit_handler 0 no_name_page)) "email"
    = Some (lit "x@y.com").
Proof.
  destruct (submit_failure_keeps_fields 0 no_name_page
              [] (lit "x@y.com") (lit "Hi"))
    as (_ & H2 & _ & H4 & _);
    try reflexivity; [by eexists | by left | by split].
Defined.

(** C3: whatever the document holds, and whether the handler returns from
    the failure branch, from the success branch or throws, the event is
    canceled when the handler is done, so the default action does not run. *)
Theorem submit_default_suppressed this w :
  defaultPrevented (snd (submit_handler this w)) = true /\
  default_action_runs (snd (submit_handler this w)) = false.
Proof.
  unfold default_action_runs. by rewrite handler_canceled.
Qed.

(** C5: a value made of white space only trims to the empty string, and a
    submission with such a name, email or message takes the failure branch:
    the status node reads "Please fill in all fields." and nothing is
    reset. *)
Theorem submit_blank_fails this w vn ve vm :
  field_value w "name" = Some vn ->
  field_value w "email" = Some ve ->
  field_value w "message" = Some vm ->
  is_Some (status_text w) ->
  all_white_space vn = true \/ all_white_space ve = true
    \/ all_white_space vm = true ->
  let w' := snd (submit_handler this w) in
  (forall v, all_white_space v = true -> trim v = []) /\
  fst (submit_handler this w) = Normal tt /\
  status_text w' = Some (lit "Please fill in all fields.") /\
  did_reset w w' = false.
Proof.
  intros Hn He Hm [s Hs]%status_node Hblank w'.
  split; [apply trim_white|].
  assert (Hbad : trim vn = [] \/ trim ve = [] \/ trim vm = [])
    by (destruct Hblank as [H|[H|H]]; apply trim_white in H; auto).
  assert (Hrun := handler_run this w vn ve vm s Hn He Hm Hs).
  rewrite guard_all_filled in Hrun.
  rewrite (proj2 (all_filled_false vn ve vm)) in Hrun by done.
  cbn [negb] in Hrun. subst w'. rewrite Hrun. cbn [fst snd].
  split; [done|]. split; [by apply status_after_status|].
  unfold did_reset. by rewrite new_effects_app.
Qed.

Lemma submit_blank_fails_witness :
  trim (lit "   ") = [] /\
  status_text (snd (submit_handler 0 blank_name_page))
    = Some (lit "Please fill in all fields.").
Proof.
  destruct (submit_blank_fails 0 blank_name_page
              (lit "   ") (lit "x@y.com") (lit "Hi"))
    as (H1 & _ & H3 & _);
    try reflexivity; [by eexists | by left |].
  split; [apply H1; reflexivity | exact H3].
Defined.



(** C9: two submissions whose name, email and message fields hold the same
    strings complete the same way, take the same branch, write the same
    status text and agree on whether the form is reset, whatever else
    differs between the two pages. *)
Theorem submit_deterministic this1 this2 w1 w2 vn ve vm :
  field_value w1 "name" = Some vn -> field_value w2 "name" = Some vn ->
  field_value w1 "email" = Some ve -> field_value w2 "email" = Some ve ->
  field_value w1 "message" = Some vm -> field_value w2 "message" = Some vm ->
  is_Some (status_text w1) -> is_Some (status_text w2) ->
  let w1' := snd (submit_handler this1 w1) in
  let w2' := snd (submit_handler this2 w2) in
  fst (submit_handler this1 w1) = fst (submit_handler this2 w2) /\
  status_writes w1 w1' = status_writes w2 w2' /\
  status_text w1' = status_text w2' /\
  did_reset w1 w1' = did_reset w2 w2'.
Proof.
  intros Hn1 Hn2 He1 He2 Hm1 Hm2 [s1 Hs1]%status_node [s2 Hs2]%status_node.
  intros w1' w2'. subst w1' w2'.
  rewrite (handler_run this1 w1 vn ve vm s1), (handler_run this2 w2 vn ve vm s2)
    by done.
  destruct (negb _ || negb _ || negb _); cbn [fst snd];
    unfold did_reset, status_writes; rewrite !new_effects_app;
    rewrite ?status_after_status, ?status_after_reset by done; done.
Qed.

Lemma submit_deterministic_witness :
  status_text (snd (submit_handler 0 ada_page))
  = status_text (snd (submit_handler 0 ada_prefilled)) /\
  did_reset ada_page (snd (submit_handler 0 ada_page))
  = did_reset ada_prefilled (snd (submit_handler 0 ada_prefilled)).
Proof.
  destruct (submit_deterministic 0 0 ada_page ada_prefilled
              (lit "Ada") (lit "ada@example.com") (lit "Hello"))
    as (_ & _ & H3 & H4).
  1-6: reflexivity.
  1-2: by eexists.
  split; [exact H3 | exact H4].
Defined.

End SubmitBranches.

(** ** Facts about the selector and the timer queue *)

Section QueueFacts.

Lemma select_from_spec c d n k :
  In k (select_from n c d)
  <-> exists el, (n <= k)%nat /\ d !! (k - n)%nat = Some el /\ c ∈ className el.
Proof.
  revert n. induction d as [|a d IH]; intros n; cbn.
  - split; [done|]. by intros (el & _ & ? & _).
  - assert (Hrest : In k (select_from (S n) c d)
      <-> exists el, (n < k)%nat /\ (a :: d) !! (k - n)%nat = Some el
                     /\ c ∈ className el).
    { rewrite IH. split; intros (el & Hle & Hl & Hc); exists el.
      - replace (k - n)%nat with (S (k - S n)) by lia. done.
      - replace (k - n)%nat with (S (k - S n)) in Hl by lia. done. }
    case_bool_decide as Hc; cbn; rewrite Hrest.
    + split.
      * intros [<-|(el & ? & ? & ?)].
        -- exists a. rewrite Nat.sub_diag. done.
        -- exists el. split; [lia|done].
      * intros (el & Hle & Hl & Hel).
        destruct (decide (n = k)) as [->|]; [by left|right].
        exists el. split; [lia|done].
    + split.
      * intros (el & ? & ? & ?). exists el. split; [lia|done].
      * intros (el & Hle & Hl & Hel).
        destruct (decide (n = k)) as [->|].
        -- rewrite Nat.sub_diag in Hl. cbn in Hl. congruence.
        -- exists el. split; [lia|done].
Qed.

Lemma select_from_lower c d n k : In k (select_from n c d) -> (n <= k)%nat.
Proof. rewrite select_from_spec. by intros (? & ? & _). Qed.

Lemma select_from_NoDup c d n : NoDup (select_from n c d).
Proof.
  revert n. induction d as [|a d IH]; intros n; cbn; [constructor|].
  case_bool_decide; [|apply IH].
  apply NoDup_cons. split; [|apply IH].
  intros Hin%list_elem_of_In%select_from_lower. lia.
Qed.

(** A node is selected exactly when it is in the document with the class. *)
Lemma selected_iff c d k :
  In k (select_from 0 c d) <-> exists el, d !! k = Some el /\ c ∈ className el.
Proof.
  rewrite select_from_spec. rewrite Nat.sub_0_r.
  split; [intros (el & _ & ? & ?)|intros (el & ? & ?)]; exists el;
    repeat split; try done; lia.
Qed.

Lemma filter_enqueue_out (p : Timer -> bool) tm q :
  p tm = false -> List.filter p (enqueue tm q) = List.filter p q.
Proof.
  intros Hp. induction q as [|x q IH]; cbn; [by rewrite Hp|].
  destruct (due x <=? due tm); cbn; [by rewrite IH|by rewrite Hp].
Qed.

Lemma ordered_head_late x q D :
  ordered (x :: q) = true -> (D < due x) ->
  List.filter (is_due D) (x :: q) = [].
Proof.
  cbn [ordered]. intros [Hall _]%andb_prop Hlate.
  rewrite forallb_forall in Hall.
  cbn. unfold is_due at 1.
  destruct (N.leb_spec (due x) D) as [?|_]; [lia|].
  induction q as [|y q IH]; cbn; [done|].
  assert (Hy := Hall y (or_introl eq_refl)). apply N.leb_le in Hy.
  unfold is_due at 1. destruct (N.leb_spec (due y) D) as [?|_]; [lia|].
  apply IH. intros z Hz. apply Hall. by right.
Qed.

Lemma filter_enqueue_due tm q :
  ordered q = true ->
  List.filter (is_due (due tm)) (enqueue tm q)
  = (List.filter (is_due (due tm)) q ++ [tm])%list.
Proof.
  induction q as [|x q IH]; intros Hq; cbn [enqueue].
  - cbn. unfold is_due. by rewrite N.leb_refl.
  - destruct (N.leb_spec (due x) (due tm)) as [Hle|Hlt].
    + assert (Hx : is_due (due tm) x = true) by by apply N.leb_le.
      cbn [List.filter]. rewrite Hx. cbn [app]. f_equal.
      apply IH. cbn in Hq. by apply andb_prop in Hq as [_ ?].
    + rewrite (ordered_head_late x q (due tm) Hq Hlt).
      change (tm :: x :: q) with ([tm] ++ x :: q)%list.
      rewrite List.filter_app, (ordered_head_late x q (due tm) Hq Hlt).
      cbn. unfold is_due. by rewrite N.leb_refl.
Qed.

Lemma In_enqueue x tm q : In x (enqueue tm q) <-> x = tm \/ In x q.
Proof.
  induction q as [|y q IH]; cbn; [intuition congruence|].
  destruct (due y <=? due tm); cbn; [rewrite IH|]; intuition congruence.
Qed.

Lemma ordered_enqueue tm q : ordered q = true -> ordered (enqueue tm q) = true.
Proof.
  induction q as [|x q IH]; intros Hq; cbn [enqueue]; [done|].
  destruct (N.leb_spec (due x) (due tm)) as [Hle|Hlt].
  - cbn in Hq |- *. apply andb_prop in Hq as [Hall Hq].
    rewrite IH by done. rewrite andb_true_r.
    rewrite forallb_forall in Hall |- *.
    intros y [->|Hy]%In_enqueue; [by apply N.leb_le|by apply Hall].
  - change (forallb (fun y => due tm <=? due y) (x :: q) && ordered (x :: q)
            = true).
    rewrite Hq, andb_true_r.
    pose proof Hq as Hq'. cbn in Hq'. apply andb_prop in Hq' as [Hall _].
    rewrite forallb_forall in Hall |- *.
    intros y [<-|Hy]; apply N.leb_le; [lia|].
    apply Hall, N.leb_le in Hy. lia.
Qed.

End QueueFacts.

(** ** Running the animator and the timers *)

Section AnimatorRuns.

Ltac run_animator :=
  unfold animate, fire, setTimeout, bind, get, set_style_width, put;
  cbn [document defaultPrevented now timers trace log set_document].

Lemma lookup_after_zero x b (d : list Element) k :
  alter (with_style_width x) b d !! k
  = (fun el => if decide (k = b) then with_style_width x el else el) <$> d !! k.
Proof.
  destruct (decide (k = b)) as [->|Hk].
  - by rewrite list_lookup_alter_eq.
  - rewrite list_lookup_alter_ne by done. by destruct (d !! k).
Qed.

Lemma animate_run w b el :
  document w !! b = Some el ->
  animate b w =
    (Normal tt,
     mkWorld (alter (with_style_width (lit "0%")) b (document w))
             (defaultPrevented w) (now w)
             (enqueue (mkTimer (now w + 300) b (style_width el)) (timers w))
             (trace w ++ [ESetStyleWidth b (lit "0%");
                          ESetTimeout 300 b (style_width el)])).
Proof.
  intros Hb. run_animator. rewrite Hb. run_animator. rewrite Hb.
  unfold log, set_document. run_animator. by rewrite <- app_assoc.
Qed.

Lemma captured_lookup w b el :
  document w !! b = Some el -> captured w b = style_width el.
Proof. unfold captured, width_of. by intros ->. Qed.

(** One pass of [forEach] over distinct bars: each bar is read before it is
    written, so the width captured for it is the one it had on entry. *)
Lemma forEach_animate cap bs : forall w,
  NoDup bs ->
  (forall b, b ∈ bs ->
     exists el, document w !! b = Some el /\ style_width el = cap b) ->
  exists w',
    forEach bs animate w = (Normal tt, w') /\
    (forall k, document w' !! k
               = (fun el => if bool_decide (k ∈ bs)
                            then with_style_width (lit "0%") el else el)
                   <$> document w !! k) /\
    defaultPrevented w' = defaultPrevented w /\
    now w' = now w /\
    timers w' = fold_left (fun q tm => enqueue tm q)
                          (restore_timers (now w) cap bs) (timers w) /\
    trace w' = (trace w ++ pass_effects cap bs)%list.
Proof.
  induction bs as [|b bs IH]; intros w Hnd Hin.
  - exists w. cbn. repeat split; try done.
    + intros k. by destruct (document w !! k).
    + by rewrite app_nil_r.
  - apply NoDup_cons in Hnd as [Hb Hnd].
    destruct (Hin b) as (el & Hel & Hcap); [by left|].
    cbn [forEach]. unfold bind at 1. rewrite (animate_run w b el Hel).
    set (w1 := mkWorld _ _ _ _ _).
    destruct (IH w1 Hnd) as (w' & Hrun & Hdoc & Hc & Hnow & Htm & Htr).
    { intros b' Hb'. subst w1. cbn [document]. rewrite lookup_after_zero.
      destruct (Hin b') as (el' & -> & Hcap'); [by right|]. cbn.
      case_decide; [congruence|]. eauto. }
    exists w'. split; [done|]. split; [|split; [done|split; [done|split]]].
    + intros k. rewrite Hdoc. subst w1. cbn [document].
      rewrite lookup_after_zero. destruct (document w !! k); [|done]. cbn.
      f_equal. rewrite (bool_decide_ext (k ∈ b :: bs) (k = b \/ k ∈ bs))
        by apply elem_of_cons.
      repeat case_bool_decide; case_decide; try done; exfalso; tauto.
    + rewrite Htm. subst w1. cbn. by rewrite Hcap.
    + rewrite Htr. subst w1. cbn [trace]. rewrite <- app_assoc.
      cbn. by rewrite Hcap.
Qed.

(** The bars the listener walks over. *)
Lemma bars_NoDup d : NoDup (select_from 0 "progress" d).
Proof. apply select_from_NoDup. Qed.

Lemma bars_selected d b :
  b ∈ select_from 0 "progress" d
  <-> exists el, d !! b = Some el /\ "progress" ∈ className el.
Proof. rewrite list_elem_of_In. apply selected_iff. Qed.

Lemma on_ready_run w :
  let bs := select_from 0 "progress" (document w) in
  exists w1,
    on_ready w = (Normal tt, w1) /\
    (forall k, document w1 !! k
               = (fun el => if bool_decide (k ∈ bs)
                            then with_style_width (lit "0%") el else el)
                   <$> document w !! k) /\
    defaultPrevented w1 = defaultPrevented w /\
    now w1 = now w /\
    timers w1 = fold_left (fun q tm => enqueue tm q)
                          (restore_timers (now w) (captured w) bs) (timers w) /\
    trace w1 = (trace w ++ pass_effects (captured w) bs)%list.
Proof.
  intros bs. unfold on_ready, bind, querySelectorAll. fold bs.
  apply forEach_animate; [apply bars_NoDup|].
  intros b (el & Hel & _)%bars_selected. exists el.
  by rewrite (captured_lookup w b el).
Qed.

Lemma filter_fold_enqueue_out (p : Timer -> bool) tms : forall q,
  (forall tm, In tm tms -> p tm = false) ->
  List.filter p (fold_left (fun q tm => enqueue tm q) tms q) = List.filter p q.
Proof.
  induction tms as [|tm tms IH]; intros q Hp; cbn; [done|].
  rewrite IH by (intros; apply Hp; by right).
  apply filter_enqueue_out, Hp. by left.
Qed.

Lemma filter_fold_enqueue_due D tms : forall q,
  ordered q = true ->
  (forall tm, In tm tms -> due tm = D) ->
  List.filter (is_due D) (fold_left (fun q tm => enqueue tm q) tms q)
  = (List.filter (is_due D) q ++ tms)%list.
Proof.
  induction tms as [|tm tms IH]; intros q Hq HD; cbn.
  - by rewrite app_nil_r.
  - rewrite IH; [|by apply ordered_enqueue|intros; apply HD; by right].
    rewrite <- (HD tm) by by left.
    rewrite filter_enqueue_due by done. by rewrite <- app_assoc.
Qed.

Lemma In_fold_enqueue x tms : forall q,
  In x (fold_left (fun q tm => enqueue tm q) tms q) <-> In x tms \/ In x q.
Proof.
  induction tms as [|tm tms IH]; intros q; cbn; [tauto|].
  rewrite IH, In_enqueue. intuition congruence.
Qed.

Lemma due_restore_timers t cap bs tm :
  In tm (restore_timers t cap bs) -> due tm = t + 300.
Proof. unfold restore_timers. by intros (b & <- & _)%in_map_iff. Qed.

(** Firing timers. *)
Lemma fire_lookup tm w k :
  document (snd (fire tm w)) !! k
  = (fun el => if decide (k = bar tm) then with_style_width (width tm) el
               else el) <$> document w !! k.
Proof.
  run_animator. destruct (document w !! bar tm) eqn:Hb; cbn.
  - apply lookup_after_zero.
  - destruct (document w !! k) eqn:Hk; [|done]. cbn.
    case_decide; [congruence|done].
Qed.

Lemma fire_timers tm w : timers (snd (fire tm w)) = timers w.
Proof. run_animator. by destruct (document w !! bar tm). Qed.

Lemma fire_width tm w k :
  width_of (snd (fire tm w)) k
  = (fun x => if decide (k = bar tm) then width tm else x) <$> width_of w k.
Proof.
  unfold width_of. rewrite fire_lookup. destruct (document w !! k); [|done].
  cbn. by case_decide.
Qed.

Lemma fires_timers ts : forall w,
  timers (fold_left (fun w' tm => snd (fire tm w')) ts w) = timers w.
Proof.
  induction ts as [|tm ts IH]; intros w; cbn [fold_left]; [done|].
  by rewrite IH, fire_timers.
Qed.

Lemma fires_width_other ts k : forall w,
  (forall tm, In tm ts -> bar tm <> k) ->
  width_of (fold_left (fun w' tm => snd (fire tm w')) ts w) k = width_of w k.
Proof.
  induction ts as [|tm ts IH]; intros w Hk; cbn [fold_left]; [done|].
  rewrite IH by (intros; apply Hk; by right).
  rewrite fire_width. destruct (width_of w k); [|done]. cbn.
  case_decide as E; [|done]. symmetry in E. by apply Hk in E; [|left].
Qed.

Lemma fires_width_restored t cap bs k : forall w,
  width_of (fold_left (fun w' tm => snd (fire tm w'))
                      (restore_timers t cap bs) w) k
  = (fun x => if bool_decide (k ∈ bs) then cap k else x) <$> width_of w k.
Proof.
  induction bs as [|b bs IH]; intros w;
    unfold restore_timers; cbn [map fold_left].
  - by destruct (width_of w k).
  - fold (restore_timers t cap bs). rewrite IH, fire_width. cbn [bar width]. destruct (width_of w k); [|done]. cbn.
    f_equal. rewrite (bool_decide_ext (k ∈ b :: bs) (k = b \/ k ∈ bs))
      by apply elem_of_cons.
    destruct (decide (k = b)) as [->|]; repeat case_bool_decide;
      try done; exfalso; tauto.
Qed.

Lemma run_until_timers t w :
  timers (run_until t w)
  = List.filter (fun tm => negb (is_due t tm)) (timers w).
Proof. unfold run_until. by rewrite fires_timers. Qed.

Lemma fires_width_defined ts k : forall w,
  is_Some (width_of w k) ->
  is_Some (width_of (fold_left (fun w' tm => snd (fire tm w')) ts w) k).
Proof.
  induction ts as [|tm ts IH]; intros w Hw; cbn [fold_left]; [done|].
  apply IH. rewrite fire_width. destruct Hw as [x ->]. by eexists.
Qed.

Lemma run_until_width t w k :
  width_of (run_until t w) k
  = width_of (fold_left (fun w' tm => snd (fire tm w'))
                        (List.filter (is_due t) (timers w)) w) k.
Proof.
  unfold run_until.
  generalize (List.filter (fun tm => negb (is_due t tm)) (timers w)) as q.
  generalize (N.max (now w) t) as n.
  generalize (List.filter (is_due t) (timers w)) as ts.
  intros ts n q.
  assert (H : forall w1 w2, document w1 = document w2 ->
    width_of (fold_left (fun w' tm => snd (fire tm w')) ts w1) k
    = width_of (fold_left (fun w' tm => snd (fire tm w')) ts w2) k).
  { induction ts as [|tm ts IH]; intros w1 w2 Hd; cbn [fold_left].
    - unfold width_of. by rewrite Hd.
    - apply IH. apply list_eq. intros j. by rewrite !fire_lookup, Hd. }
  by apply H.
Qed.

(** What the listener and its timer do to one bar [b] holding width
    [style_width el]. *)
Lemma bar_cycle w b el :
  document w !! b = Some el ->
  "progress" ∈ className el ->
  let w1 := snd (on_ready w) in
  let tm := mkTimer (now w + 300) b (style_width el) in
  fst (on_ready w) = Normal tt /\
  width_of w1 b = Some (lit "0%") /\
  In (ESetStyleWidth b (lit "0%")) (new_effects w w1) /\
  In (ESetTimeout 300 b (style_width el)) (new_effects w w1) /\
  In tm (timers w1) /\
  (forall t, t < now w + 300 -> In tm (timers (run_until t w1))) /\
  (forall t, t < now w + 300 ->
     (forall x, In x (timers w) -> bar x <> b) ->
     width_of (run_until t w1) b = Some (lit "0%")) /\
  (ordered (timers w) = true ->
     width_of (run_until (now w + 300) w1) b = Some (style_width el)) /\
  ~ In tm (timers (run_until (now w + 300) w1)).
Proof.
  intros Hel Hcls w1 tm.
  destruct (on_ready_run w) as (w1' & Hrun & Hdoc & _ & _ & Htm & Htr).
  subst w1. rewrite Hrun. cbn [fst snd].
  set (bs := select_from 0 "progress" (document w)) in *.
  assert (Hb : b ∈ bs) by (apply bars_selected; eauto).
  assert (Hcap : captured w b = style_width el) by by apply captured_lookup.
  assert (Hmine : In tm (restore_timers (now w) (captured w) bs)).
  { unfold restore_timers. apply in_map_iff. exists b.
    rewrite Hcap. split; [done|by apply list_elem_of_In]. }
  assert (Hw1 : width_of w1' b = Some (lit "0%")).
  { unfold width_of. rewrite Hdoc, Hel. cbn. by rewrite bool_decide_eq_true_2. }
  assert (Hin : In tm (timers w1')) by (rewrite Htm; apply In_fold_enqueue; auto).
  assert (Heff : new_effects w w1' = pass_effects (captured w) bs).
  { unfold new_effects. by rewrite Htr, drop_app_length. }
  split; [done|]. split; [done|].
  split; [|split].
  { rewrite Heff. apply in_flat_map. exists b.
    split; [by apply list_elem_of_In|by left]. }
  { rewrite Heff. apply in_flat_map. exists b.
    split; [by apply list_elem_of_In|]. rewrite Hcap. right. by left. }
  split; [done|]. split; [|split; [|split]].
  - intros t Ht. rewrite run_until_timers. apply filter_In. split; [done|].
    unfold is_due. cbn. apply negb_true_iff, N.leb_gt. lia.
  - intros t Ht Hothers. rewrite run_until_width.
    rewrite fires_width_other; [done|].
    intros x [Hx Hdue]%filter_In. rewrite Htm in Hx.
    apply In_fold_enqueue in Hx as [Hx|Hx]; [|by apply Hothers].
    apply due_restore_timers in Hx. unfold is_due in Hdue.
    apply N.leb_le in Hdue. lia.
  - intros Hord. rewrite run_until_width, Htm.
    rewrite filter_fold_enqueue_due by
      (done || intros ? ?; by eapply due_restore_timers).
    rewrite fold_left_app, fires_width_restored.
    destruct (fires_width_defined (List.filter (is_due (now w + 300)) (timers w))
                b w1') as [x ->]; [by eexists|].
    cbn. by rewrite bool_decide_eq_true_2, Hcap.
  - rewrite run_until_timers. intros [_ Hdue]%filter_In.
    unfold is_due in Hdue. cbn in Hdue.
    by rewrite N.leb_refl in Hdue.
Qed.

End AnimatorRuns.

(** ** The animator: reset, restore, and the empty page *)

Section AnimatorClaims.

Lemma on_ready_effects w :
  new_effects w (snd (on_ready w))
  = pass_effects (captured w) (select_from 0 "progress" (document w)).
Proof.
  destruct (on_ready_run w) as (w1 & Hrun & _ & _ & _ & _ & Htr).
  rewrite Hrun. unfold new_effects. cbn [snd]. by rewrite Htr, drop_app_length.
Qed.

(** C4: for a bar of the document, the listener completes normally and
    leaves the bar at width "0%" with one timer, due 300 ms later, that
    holds the width the bar had on entry.  Before that time the timer is
    still pending (and the bar still at "0%" when no other pending timer
    writes to it); once the 300 ms have passed the timer has fired and left
    the queue, and the bar has the width it had before the reset. *)
Theorem animator_resets_then_restores w b el :
  ordered (timers w) = true ->
  document w !! b = Some el ->
  "progress" ∈ className el ->
  let w1 := snd (on_ready w) in
  let tm := mkTimer (now w + 300) b (style_width el) in
  fst (on_ready w) = Normal tt /\
  width_of w1 b = Some (lit "0%") /\
  In tm (timers w1) /\
  (forall t, t < now w + 300 -> In tm (timers (run_until t w1))) /\
  (forall t, t < now w + 300 ->
     (forall x, In x (timers w) -> bar x <> b) ->
     width_of (run_until t w1) b = Some (lit "0%")) /\
  width_of (run_until (now w + 300) w1) b = Some (style_width el) /\
  ~ In tm (timers (run_until (now w + 300) w1)).
Proof.
  intros Hord Hel Hcls w1 tm.
  destruct (bar_cycle w b el Hel Hcls)
    as (H1 & H2 & _ & _ & H5 & H6 & H7 & H8 & H9).
  repeat split; auto.
Qed.

Lemma animator_resets_then_restores_witness :
  width_of (snd (on_ready skills_page)) 1 = Some (lit "0%") /\
  width_of (run_until 299 (snd (on_ready skills_page))) 1 = Some (lit "0%") /\
  width_of (run_until 300 (snd (on_ready skills_page))) 1 = Some (lit "75%").
Proof.
  destruct (animator_resets_then_restores skills_page 1
              (progress_bar (lit "75%")))
    as (_ & H2 & _ & _ & H5 & H6 & _).
  - reflexivity.
  - reflexivity.
  - apply list_elem_of_here.
  - split; [exact H2|]. split; [|exact H6].
    apply H5; [reflexivity|]. intros x [].
Defined.

(** C7: a bar whose inline width is the empty string (set to nothing, or
    not set at all) is captured as the empty string, and that same empty
    string is what the timer writes back: nothing is checked and nothing is
    put in its place. *)
Theorem animator_restores_empty_width w b el :
  ordered (timers w) = true ->
  document w !! b = Some el ->
  "progress" ∈ className el ->
  style_width el = [] ->
  let w1 := snd (on_ready w) in
  In (ESetTimeout 300 b []) (new_effects w w1) /\
  In (mkTimer (now w + 300) b []) (timers w1) /\
  width_of (run_until (now w + 300) w1) b = Some [].
Proof.
  intros Hord Hel Hcls Hempty w1.
  destruct (bar_cycle w b el Hel Hcls)
    as (_ & _ & _ & H4 & H5 & _ & _ & H8 & _).
  rewrite Hempty in H4, H5, H8. auto.
Qed.

Lemma animator_restores_empty_width_witness :
  In (mkTimer 300 4 []) (timers (snd (on_ready skills_page))) /\
  width_of (run_until 300 (snd (on_ready skills_page))) 4 = Some [].
Proof.
  destruct (animator_restores_empty_width skills_page 4 (progress_bar []))
    as (_ & H2 & H3).
  - reflexivity.
  - reflexivity.
  - apply list_elem_of_here.
  - reflexivity.
  - split; [exact H2 | exact H3].
Defined.

(** C8: when the selector matches no element, the listener returns normally
    and the world is exactly the one it started in: no width written, no
    timer scheduled, nothing logged. *)
Theorem animator_no_bars_no_effect w :
  fst (querySelectorAll "progress" w) = Normal [] ->
  on_ready w = (Normal tt, w) /\
  new_effects w (snd (on_ready w)) = [] /\
  List.filter is_width_write (new_effects w (snd (on_ready w))) = [] /\
  List.filter is_schedule (new_effects w (snd (on_ready w))) = [] /\
  timers (snd (on_ready w)) = timers w /\
  document (snd (on_ready w)) = document w.
Proof.
  unfold querySelectorAll. cbn [fst]. intros [= Hnone].
  assert (Hrun : on_ready w = (Normal tt, w)).
  { unfold on_ready, bind, querySelectorAll. by rewrite Hnone. }
  rewrite Hrun. cbn [snd]. unfold new_effects. rewrite drop_all. done.
Qed.

Lemma animator_no_bars_no_effect_witness :
  on_ready ada_page = (Normal tt, ada_page).
Proof.
  apply (animator_no_bars_no_effect ada_page). reflexivity.
Defined.

(** C10: whatever width a bar holds, in whatever unit, the reset writes the
    literal "0%" to it, and "0%" is the only width the listener itself ever
    writes.  The width is read before that write, so the value restored
    after the delay is the original one: it is "0%" only for a bar that was
    at "0%" to begin with. *)
Theorem animator_zero_literal w b el :
  ordered (timers w) = true ->
  document w !! b = Some el ->
  "progress" ∈ className el ->
  let w1 := snd (on_ready w) in
  width_of w1 b = Some (lit "0%") /\
  In (ESetStyleWidth b (lit "0%")) (new_effects w w1) /\
  (forall k x, In (ESetStyleWidth k x) (new_effects w w1) -> x = lit "0%") /\
  (forall x, In (mkTimer (now w + 300) b x) (timers w1) ->
     ~ In (mkTimer (now w + 300) b x) (timers w) -> x = style_width el) /\
  (width_of (run_until (now w + 300) w1) b = Some (lit "0%") ->
     style_width el = lit "0%").
Proof.
  intros Hord Hel Hcls w1.
  destruct (bar_cycle w b el Hel Hcls)
    as (_ & H2 & H3 & _ & _ & _ & _ & H8 & _).
  split; [done|]. split; [done|]. split; [|split].
  - intros k x. subst w1. rewrite on_ready_effects. unfold pass_effects.
    intros (b' & _ & [H|[H|[]]])%in_flat_map; congruence.
  - intros x Hx Hnew. subst w1.
    destruct (on_ready_run w) as (w1 & Hrun & _ & _ & _ & Htm & _).
    rewrite Hrun in Hx. cbn [snd] in Hx. rewrite Htm in Hx.
    apply In_fold_enqueue in Hx as [Hx|Hx]; [|done].
    unfold restore_timers in Hx. apply in_map_iff in Hx as (b' & Heq & _).
    injection Heq as -> <-. by apply captured_lookup.
  - subst w1. rewrite (H8 Hord). by intros [= ->].
Qed.

Lemma animator_zero_literal_witness :
  width_of (snd (on_ready skills_page)) 3 = Some (lit "0%") /\
  width_of (run_until 300 (snd (on_ready skills_page))) 3 = Some (lit "120px").
Proof.
  destruct (animator_zero_literal skills_page 3 (progress_bar (lit "120px")))
    as (H1 & _).
  - reflexivity.
  - reflexivity.
  - apply list_elem_of_here.
  - split; [exact H1 | reflexivity].
Defined.

End AnimatorClaims.

(** ** The submit handler on a page that lacks an element *)

Section SubmitErrors.

Ltac step_handler :=
  unfold submit_handler, bind, preventDefault, getElementById, get,
    set_textContent, put, reset;
  cbn [document defaultPrevented now timers trace log set_document].

Lemma find_id_lookup i d n :
  find_id i d = Some n -> exists el, d !! n = Some el.
Proof. intros (el & ? & _)%find_id_Some. eauto. Qed.

(** The world a handler leaves when a read or write hits [null]: only the
    event was canceled. *)
Lemma handler_missing_field_run this w :
  find_id "name" (document w) = None
  \/ find_id "email" (document w) = None
  \/ find_id "message" (document w) = None ->
  submit_handler this w
  = (Throw TypeError,
     mkWorld (document w) true (now w) (timers w) (trace w ++ [EPreventDefault])).
Proof.
  intros Hmiss. step_handler.
  destruct (find_id "name" (document w)) as [n|] eqn:Fn; step_handler;
    [|done].
  destruct (find_id_lookup _ _ _ Fn) as [eln ->]. step_handler.
  destruct (find_id "email" (document w)) as [e|] eqn:Fe; step_handler;
    [|done].
  destruct (find_id_lookup _ _ _ Fe) as [ele ->]. step_handler.
  destruct (find_id "message" (document w)) as [m|] eqn:Fm; step_handler;
    [|done].
  exfalso. destruct Hmiss as [?|[?|?]]; congruence.
Qed.

(** X1: when the page has no element with id "name", "email" or "message",
    the handler throws a TypeError.  It has canceled the event by then, and
    that is all it did: the document is untouched, the status node was not
    written and the form was not reset. *)
Theorem submit_missing_field_throws this w :
  find_id "name" (document w) = None
  \/ find_id "email" (document w) = None
  \/ find_id "message" (document w) = None ->
  let w' := snd (submit_handler this w) in
  fst (submit_handler this w) = Throw TypeError /\
  defaultPrevented w' = true /\
  document w' = document w /\
  new_effects w w' = [EPreventDefault] /\
  status_text w' = status_text w.
Proof.
  intros Hmiss w'. subst w'. rewrite handler_missing_field_run by done.
  cbn [fst snd]. rewrite new_effects_app. done.
Qed.

Lemma submit_missing_field_throws_witness :
  fst (submit_handler 0 (page [plain "contact-form"; plain "form-message"]))
  = Throw TypeError.
Proof.
  apply (submit_missing_field_throws 0
           (page [plain "contact-form"; plain "form-message"])).
  left. reflexivity.
Defined.

(** X2: when the three fields are there but the page has no element with id
    "form-message", the handler throws a TypeError on the status write,
    whatever the fields hold.  Even a fully filled-in form is then not
    reset: the fields keep the entered values. *)
Theorem submit_missing_status_throws this w vn ve vm :
  field_value w "name" = Some vn ->
  field_value w "email" = Some ve ->
  field_value w "message" = Some vm ->
  find_id "form-message" (document w) = None ->
  let w' := snd (submit_handler this w) in
  fst (submit_handler this w) = Throw TypeError /\
  defaultPrevented w' = true /\
  document w' = document w /\
  new_effects w w' = [EPreventDefault] /\
  did_reset w w' = false /\
  field_value w' "name" = Some vn /\
  field_value w' "email" = Some ve /\
  field_value w' "message" = Some vm.
Proof.
  intros Hn He Hm Hs w'.
  assert (Hrun : submit_handler this w
    = (Throw TypeError,
       mkWorld (document w) true (now w) (timers w)
               (trace w ++ [EPreventDefault]))).
  { pose proof Hn as (n & eln & Fn & Ln & <-)%field_value_Some.
    pose proof He as (e & ele & Fe & Le & <-)%field_value_Some.
    pose proof Hm as (m & elm & Fm & Lm & <-)%field_value_Some.
    step_handler. rewrite Fn. step_handler. rewrite Ln. step_handler.
    rewrite Fe. step_handler. rewrite Le. step_handler.
    rewrite Fm. step_handler. rewrite Lm. step_handler.
    destruct (negb _ || negb _ || negb _);
      step_handler; rewrite Hs; reflexivity. }
  subst w'. rewrite Hrun. cbn [fst snd]. unfold did_reset.
  rewrite new_effects_app. repeat split; done.
Qed.

Lemma submit_missing_status_throws_witness :
  fst (submit_handler 0
         (page [plain "contact-form"; input "name" (lit "Ada") [] 0;
                input "email" (lit "a@b.c") [] 0;
                input "message" (lit "Hello") [] 0]))
  = Throw TypeError.
Proof.
  apply (submit_missing_status_throws 0
           (page [plain "contact-form"; input "name" (lit "Ada") [] 0;
                  input "email" (lit "a@b.c") [] 0;
                  input "message" (lit "Hello") [] 0])
           (lit "Ada") (lit "a@b.c") (lit "Hello")); reflexivity.
Defined.

End SubmitErrors.

(** ** What trimming keeps and what counts as filled in *)

Section TrimFacts.

Lemma trimStart_split s :
  exists p, s = (p ++ trimStart s)%list /\ all_white_space p = true.
Proof.
  induction s as [|c r (p & Hp & Hw)]; cbn.
  - by exists [].
  - destruct (is_white_space c) eqn:Hc.
    + exists (c :: p). split; [cbn; congruence|].
      unfold all_white_space in *. cbn [forallb]. by rewrite Hc, Hw.
    + by exists [].
Qed.

Lemma trimStart_head s c r :
  trimStart s = c :: r -> is_white_space c = false.
Proof.
  induction s as [|a s IH]; cbn; [done|].
  destruct (is_white_space a) eqn:Ha; [done|]. by intros [= <- _].
Qed.

Lemma trimStart_fixed c r :
  is_white_space c = false -> trimStart (c :: r) = c :: r.
Proof. cbn. by intros ->. Qed.

Lemma all_white_space_app (p q : jsstring) :
  all_white_space (p ++ q)%list = all_white_space p && all_white_space q.
Proof. apply forallb_app. Qed.

Lemma all_white_space_rev s : all_white_space (rev s) = all_white_space s.
Proof.
  induction s as [|c r IH]; [done|]. cbn [rev].
  rewrite all_white_space_app, IH. unfold all_white_space. cbn [forallb].
  rewrite andb_true_r. apply andb_comm.
Qed.

Lemma trimStart_nil s : trimStart s = [] -> all_white_space s = true.
Proof.
  intros H. destruct (trimStart_split s) as (p & Hp & Hw).
  rewrite H, app_nil_r in Hp. by subst.
Qed.

Lemma trimEnd_split s :
  exists q, s = (trimEnd s ++ q)%list /\ all_white_space q = true.
Proof.
  unfold trimEnd. destruct (trimStart_split (rev s)) as (p & Hp & Hw).
  exists (rev p). split; [|by rewrite all_white_space_rev].
  rewrite <- rev_app_distr, <- Hp. by rewrite rev_involutive.
Qed.

Lemma trim_nil s : trim s = [] -> all_white_space s = true.
Proof.
  unfold trim. intros H.
  destruct (trimEnd_split (trimStart s)) as (q & Hq & Hw).
  rewrite H in Hq. cbn in Hq.
  destruct (trimStart_split s) as (p & Hp & Hwp).
  rewrite Hp, all_white_space_app, Hwp, Hq. done.
Qed.

Lemma trim_nil_iff s : trim s = [] <-> all_white_space s = true.
Proof. split; [apply trim_nil|apply trim_white]. Qed.

(** The first and the last code unit of a trimmed string are not white
    space. *)
Lemma trimEnd_last s t c :
  trimEnd s = (t ++ [c])%list -> is_white_space c = false.
Proof.
  unfold trimEnd. intros H. apply (f_equal (@rev N)) in H.
  rewrite rev_involutive, rev_app_distr in H. cbn in H.
  by apply trimStart_head in H.
Qed.

Lemma trimEnd_head s c r t :
  s = c :: r -> is_white_space c = false -> trimEnd s = t ->
  exists r', t = c :: r'.
Proof.
  intros -> Hc <-. destruct (trimEnd_split (c :: r)) as (q & Hq & Hw).
  destruct (trimEnd (c :: r)) as [|a r'] eqn:E.
  - cbn in Hq. subst q. cbn in Hw. by rewrite Hc in Hw.
  - cbn in Hq. injection Hq as <- _. eauto.
Qed.

Lemma trimEnd_fixed t c :
  is_white_space c = false -> trimEnd (t ++ [c])%list = (t ++ [c])%list.
Proof.
  intros Hc. unfold trimEnd. rewrite rev_app_distr. cbn [rev app].
  rewrite trimStart_fixed by done.
  change (c :: rev t) with ([c] ++ rev t)%list.
  by rewrite rev_app_distr, rev_involutive.
Qed.

(** X4: [trim] only removes white space from the two ends: the string is
    the trimmed string between a white-space prefix and a white-space
    suffix, the trimmed string neither starts nor ends with white space, and
    trimming it again changes nothing. *)
Theorem trim_strips_ends s :
  (exists p q, s = (p ++ trim s ++ q)%list
               /\ all_white_space p = true /\ all_white_space q = true) /\
  (forall c r, trim s = c :: r -> is_white_space c = false) /\
  (forall t c, trim s = (t ++ [c])%list -> is_white_space c = false) /\
  trim (trim s) = trim s.
Proof.
  assert (Hhead : forall c r, trim s = c :: r -> is_white_space c = false).
  { intros c r H. unfold trim in H.
    destruct (trimStart s) as [|a u] eqn:E; [by cbv in H|].
    pose proof (trimStart_head _ _ _ E) as Ha.
    destruct (trimEnd_head (a :: u) a u _ eq_refl Ha H) as [r' [= <- _]].
    done. }
  assert (Hlast : forall t c, trim s = (t ++ [c])%list -> is_white_space c = false).
  { intros t c H. by apply trimEnd_last in H. }
  split; [|split; [done|split; [done|]]].
  - destruct (trimStart_split s) as (p & Hp & Hwp).
    destruct (trimEnd_split (trimStart s)) as (q & Hq & Hwq).
    exists p, q. split; [|done]. unfold trim. by rewrite <- Hq.
  - destruct (trim s) as [|c r] eqn:E; [done|].
    pose proof (Hhead c r eq_refl) as Hc.
    unfold trim at 1. rewrite trimStart_fixed by done.
    destruct (exists_last (l := c :: r)) as (t & z & Ht); [done|].
    rewrite Ht. apply trimEnd_fixed. by apply (Hlast t z).
Qed.

(** X3: emptiness after trimming is the only test.  With the three fields
    and the status node on the page, the handler takes the success branch
    (thank-you text, form reset) exactly when each of the three values has a
    code unit that is not white space; nothing else about the values, such
    as the shape of the email address, matters. *)
Theorem submit_presence_only this w vn ve vm :
  field_value w "name" = Some vn ->
  field_value w "email" = Some ve ->
  field_value w "message" = Some vm ->
  is_Some (status_text w) ->
  let w' := snd (submit_handler this w) in
  let filled := negb (all_white_space vn) && negb (all_white_space ve)
                && negb (all_white_space vm) in
  fst (submit_handler this w) = Normal tt /\
  status_text w' = Some (if filled then lit "Thank you for reaching out!"
                         else lit "Please fill in all fields.") /\
  did_reset w w' = filled.
Proof.
  intros Hn He Hm [s Hs]%status_node w' filled.
  assert (Hfilled : all_filled vn ve vm = filled).
  { subst filled. unfold all_filled. f_equal; [f_equal|].
    all: match goal with |- truthy (trim ?v) = _ =>
           destruct (all_white_space v) eqn:E;
           [by rewrite (trim_white v E)|];
           destruct (trim v) eqn:T; [|done];
           apply trim_nil in T; congruence
         end. }
  assert (Hrun := handler_run this w vn ve vm s Hn He Hm Hs).
  rewrite guard_all_filled, Hfilled in Hrun. subst w'. rewrite Hrun.
  destruct filled; cbn [negb fst snd]; unfold did_reset;
    rewrite new_effects_app.
  - split; [done|]. split; [by apply status_after_reset|done].
  - split; [done|]. split; [by apply status_after_status|done].
Qed.

Lemma submit_presence_only_witness :
  status_text (snd (submit_handler 0
    (contact_page (lit " x ") (lit "not an address") (lit "."))))
  = Some (lit "Thank you for reaching out!").
Proof.
  destruct (submit_presence_only 0
    (contact_page (lit " x ") (lit "not an address") (lit "."))
    (lit " x ") (lit "not an address") (lit ".")) as (_ & H & _).
  1-3: reflexivity.
  - by eexists.
  - exact H.
Defined.

End TrimFacts.

(** ** Submitting again *)

Section SubmitAgain.

Lemma alter_text_twice t s (d : list Element) :
  alter (with_textContent t) s (alter (with_textContent t) s d)
  = alter (with_textContent t) s d.
Proof.
  apply list_eq. intros k. rewrite !lookup_after_status.
  destruct (d !! k); [|done]. cbn. by case_decide.
Qed.

(** X5: a second submission right after a successful one reads the default
    values the reset put back.  It succeeds again only when all three
    defaults are non-empty after trimming; on a page with empty defaults it
    takes the failure branch and replaces the thank-you text with
    "Please fill in all fields.". *)
Theorem submit_twice_after_success this w vn ve vm dn de dm :
  field_value w "name" = Some vn ->
  field_value w "email" = Some ve ->
  field_value w "message" = Some vm ->
  is_Some (status_text w) ->
  field_owner w "name" = Some (Some this) ->
  field_owner w "email" = Some (Some this) ->
  field_owner w "message" = Some (Some this) ->
  field_default w "name" = Some dn ->
  field_default w "email" = Some de ->
  field_default w "message" = Some dm ->
  all_filled vn ve vm = true ->
  let w1 := snd (submit_handler this w) in
  let w2 := snd (submit_handler this w1) in
  fst (submit_handler this w1) = Normal tt /\
  status_text w2 = Some (if all_filled dn de dm
                         then lit "Thank you for reaching out!"
                         else lit "Please fill in all fields.") /\
  did_reset w1 w2 = all_filled dn de dm.
Proof.
  intros Hn He Hm [s Hs]%status_node On Oe Om Dn De Dm Hok w1 w2.
  assert (Hrun := handler_run this w vn ve vm s Hn He Hm Hs).
  rewrite guard_all_filled, Hok in Hrun. cbn [negb] in Hrun.
  subst w2 w1. rewrite Hrun. cbn [snd].
  set (w1 := mkWorld _ _ _ _ _).
  assert (Hs1 : find_id "form-message" (document w1) = Some s).
  { subst w1. cbn [document].
    rewrite find_id_fmap by apply elem_id_reset. by rewrite find_id_alter. }
  assert (Hn1 : field_value w1 "name" = Some dn)
    by (rewrite <- Dn; by apply field_reset).
  assert (He1 : field_value w1 "email" = Some de)
    by (rewrite <- De; by apply field_reset).
  assert (Hm1 : field_value w1 "message" = Some dm)
    by (rewrite <- Dm; by apply field_reset).
  rewrite (handler_run this w1 dn de dm s Hn1 He1 Hm1 Hs1).
  rewrite guard_all_filled.
  destruct (all_filled dn de dm); cbn [negb fst snd]; unfold did_reset;
    rewrite new_effects_app.
  - split; [done|]. split; [by apply status_after_reset|done].
  - split; [done|]. split; [by apply status_after_status|done].
Qed.

Lemma submit_twice_after_success_witness :
  status_text (snd (submit_handler 0 (snd (submit_handler 0 ada_page))))
  = Some (lit "Please fill in all fields.").
Proof.
  destruct (submit_twice_after_success 0 ada_page
              (lit "Ada") (lit "ada@example.com") (lit "Hello") [] [] [])
    as (_ & H & _).
  1-3: reflexivity.
  - by eexists.
  - reflexivity.
  - reflexivity.
  - reflexivity.
  - reflexivity.
  - reflexivity.
  - reflexivity.
  - reflexivity.
  - exact H.
Defined.

(** X6: a failed submission can be repeated without further change: a
    second submission with the fields left as they are fails again and
    leaves the same document, with the same error text in the status
    node. *)
Theorem submit_twice_after_failure this w vn ve vm :
  field_value w "name" = Some vn ->
  field_value w "email" = Some ve ->
  field_value w "message" = Some vm ->
  is_Some (status_text w) ->
  all_filled vn ve vm = false ->
  let w1 := snd (submit_handler this w) in
  let w2 := snd (submit_handler this w1) in
  fst (submit_handler this w1) = Normal tt /\
  document w2 = document w1 /\
  status_text w2 = Some (lit "Please fill in all fields.") /\
  did_reset w1 w2 = false.
Proof.
  intros Hn He Hm [s Hs]%status_node Hbad w1 w2.
  assert (Hrun := handler_run this w vn ve vm s Hn He Hm Hs).
  rewrite guard_all_filled, Hbad in Hrun. cbn [negb] in Hrun.
  subst w2 w1. rewrite Hrun. cbn [snd].
  set (w1 := mkWorld _ _ _ _ _).
  assert (Hs1 : find_id "form-message" (document w1) = Some s)
    by (subst w1; cbn [document]; by rewrite find_id_alter).
  assert (Hn1 : field_value w1 "name" = Some vn) by by apply field_kept.
  assert (He1 : field_value w1 "email" = Some ve) by by apply field_kept.
  assert (Hm1 : field_value w1 "message" = Some vm) by by apply field_kept.
  rewrite (handler_run this w1 vn ve vm s Hn1 He1 Hm1 Hs1).
  rewrite guard_all_filled, Hbad. cbn [negb fst snd]. unfold did_reset.
  rewrite new_effects_app. split; [done|]. split; [|split; [|done]].
  - subst w1. cbn [document]. apply alter_text_twice.
  - by apply status_after_status.
Qed.

Lemma submit_twice_after_failure_witness :
  document (snd (submit_handler 0 (snd (submit_handler 0 no_name_page))))
  = document (snd (submit_handler 0 no_name_page)).
Proof.
  destruct (submit_twice_after_failure 0 no_name_page
              [] (lit "x@y.com") (lit "Hi")) as (_ & H & _).
  1-3: reflexivity.
  - by eexists.
  - reflexivity.
  - exact H.
Defined.

End SubmitAgain.

(** ** The animator on the whole page *)

Section AnimatorPage.

Lemma same_length_lookup {A} (F : nat -> A -> A) (l l' : list A) :
  (forall k, l' !! k = F k <$> l !! k) -> length l' = length l.
Proof.
  intros H. apply Nat.le_antisymm.
  - destruct (decide (length l' <= length l)%nat) as [|Hgt]; [done|].
    assert (Hl : is_Some (l' !! length l)) by (apply lookup_lt_is_Some; lia).
    rewrite H, (lookup_ge_None_2 l (length l)) in Hl by lia.
    by destruct Hl.
  - destruct (decide (length l <= length l')%nat) as [|Hgt]; [done|].
    assert (Hl : is_Some (l !! length l')) by (apply lookup_lt_is_Some; lia).
    destruct Hl as [x Hx].
    pose proof (H (length l')) as H'. rewrite Hx in H'. cbn in H'.
    rewrite (lookup_ge_None_2 l' (length l')) in H' by lia. done.
Qed.

(** X8: on a page whose elements all carry a style, the listener writes
    inline widths of the nodes the selector returned and nothing else: it
    leaves the clock and the event alone, adds or removes no node, and every
    node keeps its id, classes, value, default value, text and form owner.
    A node in the selector's result ends at width "0%", every other node
    keeps its width. *)
Theorem animator_frame w bs :
  fst (querySelectorAll "progress" w) = Normal bs ->
  let w1 := snd (on_ready w) in
  now w1 = now w /\ defaultPrevented w1 = defaultPrevented w /\
  length (document w1) = length (document w) /\
  forall k el, document w !! k = Some el ->
    exists el', document w1 !! k = Some el' /\
      elem_id el' = elem_id el /\ className el' = className el /\
      value el' = value el /\ defaultValue el' = defaultValue el /\
      textContent el' = textContent el /\ form el' = form el /\
      style_width el'
      = if bool_decide (k ∈ bs) then lit "0%" else style_width el.
Proof.
  unfold querySelectorAll. intros [= <-]. cbv zeta.
  destruct (on_ready_run w) as (w1 & Hrun & Hdoc & Hc & Hnow & _ & _).
  rewrite Hrun. cbn [fst snd].
  split; [done|]. split; [done|]. split.
  - by apply (same_length_lookup _ _ _ Hdoc).
  - intros k el Hk. rewrite Hdoc, Hk. cbn. eexists. split; [done|].
    by case_bool_decide.
Qed.

Lemma animator_frame_witness :
  length (document (snd (on_ready skills_page))) = 5%nat /\
  width_of (snd (on_ready skills_page)) 2 = Some [] /\
  width_of (snd (on_ready skills_page)) 3 = Some (lit "0%").
Proof.
  destruct (animator_frame skills_page [1; 3; 4]%nat) as (_ & _ & H3 & _).
  - reflexivity.
  - split; [exact H3|]. split; reflexivity.
Defined.

Lemma enqueue_Permutation tm q : Permutation (enqueue tm q) (tm :: q).
Proof.
  induction q as [|x q IH]; cbn; [done|].
  destruct (due x <=? due tm); [|done].
  rewrite IH. apply perm_swap.
Qed.

Lemma fold_enqueue_Permutation tms : forall q,
  Permutation (fold_left (fun q tm => enqueue tm q) tms q) (tms ++ q).
Proof.
  induction tms as [|tm tms IH]; intros q; cbn [fold_left]; [done|].
  rewrite IH, enqueue_Permutation. cbn.
  by rewrite Permutation_middle.
Qed.

Lemma ordered_fold_enqueue tms : forall q,
  ordered q = true ->
  ordered (fold_left (fun q tm => enqueue tm q) tms q) = true.
Proof.
  induction tms as [|tm tms IH]; intros q Hq; cbn [fold_left]; [done|].
  by apply IH, ordered_enqueue.
Qed.

(** X9: the listener schedules exactly one timer per bar and drops none:
    the queue afterwards is the old queue plus, for each matched node, one
    timer due 300 ms from now that carries the width the node had on entry.
    The bars are handled in tree order, each reset immediately followed by
    its [setTimeout], and a queue in firing order stays in firing order. *)
Theorem animator_schedules_one_each w :
  let w1 := snd (on_ready w) in
  let bs := select_from 0 "progress" (document w) in
  Permutation (timers w1)
              (map (fun b => mkTimer (now w + 300) b (captured w b)) bs
               ++ timers w) /\
  length (timers w1) = (length bs + length (timers w))%nat /\
  new_effects w w1
  = flat_map (fun b => [ESetStyleWidth b (lit "0%");
                        ESetTimeout 300 b (captured w b)]) bs /\
  (ordered (timers w) = true -> ordered (timers w1) = true).
Proof.
  intros w1 bs. subst w1.
  pose proof (on_ready_effects w) as Heff.
  destruct (on_ready_run w) as (w1 & Hrun & _ & _ & _ & Htm & _).
  rewrite Hrun in Heff |- *. cbn [snd] in Heff |- *. fold bs in Htm, Heff.
  assert (Hperm : Permutation (timers w1)
            (map (fun b => mkTimer (now w + 300) b (captured w b)) bs
             ++ timers w))
    by (rewrite Htm; apply fold_enqueue_Permutation).
  split; [done|]. split; [|split; [done|]].
  - rewrite Hperm, length_app, length_map. done.
  - intros Hord. rewrite Htm. by apply ordered_fold_enqueue.
Qed.

End AnimatorPage.

(** ** The animation from start to end *)

Section AnimatorRoundTrip.

Lemma fires_document_ext ts : forall w1 w2,
  document w1 = document w2 ->
  document (fold_left (fun w' tm => snd (fire tm w')) ts w1)
  = document (fold_left (fun w' tm => snd (fire tm w')) ts w2).
Proof.
  induction ts as [|tm ts IH]; intros w1 w2 Hd; cbn [fold_left]; [done|].
  apply IH. apply list_eq. intros j. by rewrite !fire_lookup, Hd.
Qed.

Lemma run_until_document t w :
  document (run_until t w)
  = document (fold_left (fun w' tm => snd (fire tm w'))
                        (List.filter (is_due t) (timers w)) w).
Proof. unfold run_until. by apply fires_document_ext. Qed.

Lemma fires_lookup_restored t cap bs k : forall w,
  document (fold_left (fun w' tm => snd (fire tm w'))
                      (restore_timers t cap bs) w) !! k
  = (fun el => if bool_decide (k ∈ bs) then with_style_width (cap k) el
               else el) <$> document w !! k.
Proof.
  induction bs as [|b bs IH]; intros w;
    unfold restore_timers; cbn [map fold_left].
  - by destruct (document w !! k).
  - fold (restore_timers t cap bs). rewrite IH, fire_lookup. cbn [bar width].
    destruct (document w !! k) as [el|]; [|done]. cbn. f_equal.
    rewrite (bool_decide_ext (k ∈ b :: bs) (k = b \/ k ∈ bs))
      by apply elem_of_cons.
    destruct (decide (k = b)) as [->|]; repeat case_bool_decide;
      try done; exfalso; tauto.
Qed.

Lemma filter_none_due t (q : list Timer) :
  List.filter (is_due t) q = [] ->
  List.filter (fun tm => negb (is_due t tm)) q = q.
Proof.
  induction q as [|x q IH]; cbn; [done|].
  destruct (is_due t x); cbn; [done|]. intros H. by rewrite IH.
Qed.

(** X10: the animation is a round trip on the widths.  When no other timer
    is due within the 300 ms, running the listener and then the event loop
    for 300 ms leaves every node, bar or not, with the inline width it
    started with, in whatever unit, and leaves the timer queue as it was:
    all bars are restored together and no timer of the animation stays
    behind.  (This is the value [style.width] reads; the text of the style
    attribute and the priority of the declaration are not modelled.) *)
Theorem animator_round_trip w :
  ordered (timers w) = true ->
  List.filter (is_due (now w + 300)) (timers w) = [] ->
  let w2 := run_until (now w + 300) (snd (on_ready w)) in
  (forall k, width_of w2 k = width_of w k) /\ timers w2 = timers w.
Proof.
  intros Hord Hnone w2. subst w2.
  destruct (on_ready_run w) as (w1 & Hrun & Hdoc & _ & _ & Htm & _).
  rewrite Hrun. cbn [snd].
  set (bs := select_from 0 "progress" (document w)) in *.
  split.
  - intros k. unfold width_of at 1. rewrite run_until_document, Htm.
    rewrite filter_fold_enqueue_due by
      (done || intros ? ?; by eapply due_restore_timers).
    rewrite Hnone. cbn [app].
    rewrite fires_lookup_restored, Hdoc. unfold width_of.
    destruct (document w !! k) as [el|] eqn:Hk; [|done]. cbn. f_equal.
    case_bool_decide; [|done].
    by rewrite (captured_lookup w k el Hk).
  - rewrite run_until_timers, Htm.
    rewrite filter_fold_enqueue_out.
    + by apply filter_none_due.
    + intros tm Hin%due_restore_timers. unfold is_due. rewrite Hin.
      by rewrite N.leb_refl.
Qed.

Lemma animator_round_trip_witness :
  width_of (run_until 300 (snd (on_ready skills_page))) 1 = Some (lit "75%") /\
  width_of (run_until 300 (snd (on_ready skills_page))) 3 = Some (lit "120px") /\
  width_of (run_until 300 (snd (on_ready skills_page))) 4 = Some [] /\
  timers (run_until 300 (snd (on_ready skills_page))) = [].
Proof.
  destruct (animator_round_trip skills_page) as (H1 & H2).
  1-2: reflexivity.
  rewrite !H1. split; [reflexivity|]. split; [reflexivity|].
  split; [reflexivity|exact H2].
Defined.

Lemma fire_now tm w : now (snd (fire tm w)) = now w.
Proof.
  unfold fire, set_style_width, put. by destruct (document w !! bar tm).
Qed.

Lemma fires_now ts : forall w,
  now (fold_left (fun w' tm => snd (fire tm w')) ts w) = now w.
Proof.
  induction ts as [|tm ts IH]; intros w; cbn [fold_left]; [done|].
  by rewrite IH, fire_now.
Qed.

Lemma run_until_now t w : now (run_until t w) = N.max (now w) t.
Proof. unfold run_until. by rewrite fires_now. Qed.

Lemma fires_className ts k : forall w,
  className <$> document (fold_left (fun w' tm => snd (fire tm w')) ts w) !! k
  = className <$> document w !! k.
Proof.
  induction ts as [|tm ts IH]; intros w; cbn [fold_left]; [done|].
  rewrite IH, fire_lookup. destruct (document w !! k); [|done]. cbn.
  by case_decide.
Qed.

Lemma forallb_filter {A} (p f : A -> bool) l :
  forallb f l = true -> forallb f (List.filter p l) = true.
Proof.
  rewrite !forallb_forall. intros H x [Hx _]%filter_In. by apply H.
Qed.

Lemma ordered_filter (p : Timer -> bool) q :
  ordered q = true -> ordered (List.filter p q) = true.
Proof.
  induction q as [|x q IH]; [done|].
  cbn [ordered List.filter]. intros [Hall Hq]%andb_prop.
  destruct (p x); [|by apply IH].
  cbn [ordered]. rewrite IH by done. rewrite andb_true_r.
  by apply forallb_filter.
Qed.

Lemma fires_width_same ts k x : forall w,
  (forall tm, In tm ts -> bar tm = k -> width tm = x) ->
  width_of (fold_left (fun w' tm => snd (fire tm w')) ts w) k
  = (fun y => if existsb (fun tm => Nat.eqb (bar tm) k) ts then x else y)
      <$> width_of w k.
Proof.
  induction ts as [|tm ts IH]; intros w Hsame; cbn [fold_left existsb].
  - by destruct (width_of w k).
  - rewrite IH by (intros; apply Hsame; [by right|done]).
    rewrite fire_width. destruct (width_of w k) as [y|]; [|done]. cbn.
    f_equal. destruct (Nat.eqb_spec (bar tm) k) as [Hb|Hb]; cbn.
    + rewrite (Hsame tm (or_introl eq_refl) Hb).
      case_decide; [|congruence]. by destruct (existsb _ ts).
    + case_decide; [congruence|done].
Qed.

(** X11: the capture is only as good as the moment it is taken.  If the
    listener runs a second time while the timers of the first run are still
    pending (at any time [t1] short of the first 300 ms, on a page where no
    other pending timer writes to the bar), the second run finds the bar at
    "0%" and captures that.  The bar then shows its original width from the
    first deadline until the second one, 300 ms after the second run, and
    from the second deadline it is at "0%", not at its original width. *)
Theorem animator_twice_stays_zero w b el t1 :
  ordered (timers w) = true ->
  document w !! b = Some el ->
  "progress" ∈ className el ->
  (forall x, In x (timers w) -> bar x <> b) ->
  t1 < now w + 300 ->
  let w1 := run_until t1 (snd (on_ready w)) in
  let w2 := snd (on_ready w1) in
  let t2 := N.max (now w) t1 in
  now w1 = t2 /\
  width_of w1 b = Some (lit "0%") /\
  fst (on_ready w1) = Normal tt /\
  (forall t, now w + 300 <= t -> t < t2 + 300 ->
     width_of (run_until t w2) b = Some (style_width el)) /\
  width_of (run_until (t2 + 300) w2) b = Some (lit "0%").
Proof.
  intros Hord Hel Hcls Hothers Ht1 w1 w2 t2.
  destruct (bar_cycle w b el Hel Hcls)
    as (_ & _ & _ & _ & H5 & H6 & H7 & _).
  destruct (on_ready_run w) as (w0 & Hrun & Hdoc & _ & Hnow & Htm & _).
  rewrite Hrun in H5, H6, H7. cbn [snd] in H5, H6, H7.
  assert (Hw1 : w1 = run_until t1 w0) by (subst w1; by rewrite Hrun).
  assert (Hnow1 : now w1 = t2).
  { rewrite Hw1, run_until_now, Hnow. done. }
  assert (Hz : width_of w1 b = Some (lit "0%")).
  { rewrite Hw1. by apply H7. }
  assert (Hel1 : exists el1, document w1 !! b = Some el1
                   /\ style_width el1 = lit "0%"
                   /\ "progress" ∈ className el1).
  { unfold width_of in Hz.
    destruct (document w1 !! b) as [el1|] eqn:E; [|done].
    injection Hz as Hz. exists el1. split; [done|]. split; [done|].
    assert (Hc : className <$> document w1 !! b = Some (className el)).
    { rewrite Hw1, run_until_document, fires_className, Hdoc, Hel. cbn.
      by case_bool_decide. }
    rewrite E in Hc. injection Hc as ->. done. }
  destruct Hel1 as (el1 & Hel1 & Hz1 & Hcls1).
  assert (Hord1 : ordered (timers w1) = true).
  { rewrite Hw1, run_until_timers. apply ordered_filter.
    rewrite Htm. by apply ordered_fold_enqueue. }
  destruct (bar_cycle w1 b el1 Hel1 Hcls1)
    as (H1' & H2' & _ & _ & _ & _ & _ & H8' & _).
  fold w2 in H2', H8'.
  split; [done|]. split; [done|]. split; [done|]. split.
  - intros t Hlo Hhi.
    destruct (on_ready_run w1) as (w2' & Hrun2 & _ & _ & _ & Htm2 & _).
    assert (Hw2 : w2 = w2') by (subst w2; by rewrite Hrun2).
    rewrite run_until_width.
    rewrite (fires_width_same _ b (style_width el)).
    + rewrite H2'. cbn. f_equal.
      destruct (existsb _ _) eqn:E; [done|].
      assert (Hex : existsb (fun tm => Nat.eqb (bar tm) b)
                (List.filter (is_due t) (timers w2)) = true).
      { apply existsb_exists.
        exists (mkTimer (now w + 300) b (style_width el)). split.
        - apply filter_In. split; [|by apply N.leb_le].
          rewrite Hw2, Htm2. apply In_fold_enqueue. right.
          rewrite Hw1. by apply H6.
        - apply Nat.eqb_refl. }
      congruence.
    + intros tm [Hin Hdue]%filter_In Hb.
      rewrite Hw2, Htm2 in Hin.
      apply In_fold_enqueue in Hin as [Hin|Hin].
      * apply due_restore_timers in Hin. unfold is_due in Hdue.
        apply N.leb_le in Hdue. lia.
      * rewrite Hw1, run_until_timers in Hin.
        apply filter_In in Hin as [Hin _]. rewrite Htm in Hin.
        apply In_fold_enqueue in Hin as [Hin|Hin];
          [|by apply Hothers in Hin].
        unfold restore_timers in Hin.
        apply in_map_iff in Hin as (b' & <- & _). cbn in Hb. subst b'.
        cbn. by apply captured_lookup.
  - rewrite <- Hnow1, <- Hz1. by apply H8'.
Qed.

Lemma animator_twice_stays_zero_witness :
  width_of (run_until 300
              (snd (on_ready (run_until 100 (snd (on_ready skills_page)))))) 1
  = Some (lit "75%") /\
  width_of (run_until 400
              (snd (on_ready (run_until 100 (snd (on_ready skills_page)))))) 1
  = Some (lit "0%").
Proof.
  destruct (animator_twice_stays_zero skills_page 1
              (progress_bar (lit "75%")) 100) as (_ & _ & _ & H4 & H5).
  - reflexivity.
  - reflexivity.
  - apply list_elem_of_here.
  - intros x [].
  - reflexivity.
  - split; [|exact H5]. apply H4; [vm_compute; discriminate|reflexivity].
Defined.

(** X12: the restore is one-shot and does not depend on firing exactly on
    time.  When no other pending timer writes to the bar, the bar has its
    original width at every time from 300 ms on, however late the event
    loop gets to it, and the bar's timer is gone from the queue. *)
Theorem animator_restores_for_good w b el t :
  document w !! b = Some el ->
  "progress" ∈ className el ->
  (forall x, In x (timers w) -> bar x <> b) ->
  now w + 300 <= t ->
  let w1 := snd (on_ready w) in
  width_of (run_until t w1) b = Some (style_width el) /\
  forall x, In x (timers (run_until t w1)) -> bar x <> b.
Proof.
  intros Hel Hcls Hothers Ht w1. subst w1.
  destruct (bar_cycle w b el Hel Hcls) as (_ & H2 & _ & _ & H5 & _).
  destruct (on_ready_run w) as (w1 & Hrun & _ & _ & _ & Htm & _).
  rewrite Hrun in H2, H5 |- *. cbn [snd] in H2, H5 |- *.
  set (bs := select_from 0 "progress" (document w)) in *.
  assert (Hmine : forall x, In x (timers w1) -> bar x = b ->
            x = mkTimer (now w + 300) b (style_width el)).
  { intros x Hx Hbx. rewrite Htm in Hx.
    apply In_fold_enqueue in Hx as [Hx|Hx]; [|by apply Hothers in Hx].
    unfold restore_timers in Hx. apply in_map_iff in Hx as (b' & <- & _).
    cbn in Hbx. subst b'. by rewrite (captured_lookup w b el Hel). }
  split.
  - rewrite run_until_width.
    rewrite (fires_width_same _ b (style_width el)).
    + rewrite H2. cbn. f_equal.
      destruct (existsb _ _) eqn:E; [done|].
      assert (Hex : existsb (fun tm => Nat.eqb (bar tm) b)
                (List.filter (is_due t) (timers w1)) = true).
      { apply existsb_exists.
        exists (mkTimer (now w + 300) b (style_width el)). split.
        - apply filter_In. split; [done|]. by apply N.leb_le.
        - apply Nat.eqb_refl. }
      congruence.
    + intros tm [Hin _]%filter_In Hb. by rewrite (Hmine tm Hin Hb).
  - intros x Hx Hb. rewrite run_until_timers in Hx.
    apply filter_In in Hx as [Hin Hdue]. rewrite (Hmine x Hin Hb) in Hdue.
    unfold is_due in Hdue. cbn in Hdue.
    apply negb_true_iff, N.leb_gt in Hdue. lia.
Qed.

Lemma animator_restores_for_good_witness :
  width_of (run_until 5000 (snd (on_ready skills_page))) 3
  = Some (lit "120px").
Proof.
  apply (animator_restores_for_good skills_page 3
           (progress_bar (lit "120px")) 5000).
  - reflexivity.
  - apply list_elem_of_here.
  - intros x [].
  - vm_compute. discriminate.
Defined.

End AnimatorRoundTrip.
